(** * Routing and turn-taking of the multi-agent productivity assistant

    Shallow embedding of [src/graph/nodes.py], [src/graph/builder.py] and the
    ordinal-resolving Gmail tools ([read_email], [reply_to_email]).  The LLM
    calls, the Gmail/Calendar services and Python's [str()] of a LangGraph
    message object are left abstract (Section variables); everything the
    repository code decides is written out. *)

From Stdlib Require Import String Ascii List Bool Arith ZArith Lia DecimalString.
Set Warnings "-register-all".
Import ListNotations.
Open Scope string_scope.

(** ** Python values and helpers *)

(** Values produced by Python's [json.loads]. Numbers keep their source text. *)
Inductive jval : Type :=
| JNull
| JBool (b : bool)
| JNum (text : string)
| JStr (s : string)
| JArr (items : list jval)
| JObj (pairs : list (string * jval)).

(** Python [v == "lit"] for a decoded JSON value: only a [str] can be equal. *)
Definition is_str (v : jval) (lit : string) : bool :=
  match v with
  | JStr s => String.eqb s lit
  | _ => false
  end.

(** [dict.get(k, d)] on the dict built from the decoded pairs: a repeated key
    keeps its last value, as in Python's [json] module. *)
Fixpoint dict_get (pairs : list (string * jval)) (k : string) (d : jval) : jval :=
  match pairs with
  | [] => d
  | (k', v) :: rest => dict_get rest k (if String.eqb k' k then v else d)
  end.

(** [TypedDict] field read with [state.get(key, default)]: [None] stands for an
    absent key. *)
Definition get_or {A} (o : option A) (d : A) : A :=
  match o with Some x => x | None => d end.

(** [s.find(c)] and [s.rfind(c)]. *)
Fixpoint str_find (c : ascii) (s : string) : option nat :=
  match s with
  | EmptyString => None
  | String c' rest =>
      if Ascii.eqb c c' then Some 0
      else option_map S (str_find c rest)
  end.

Fixpoint str_rfind (c : ascii) (s : string) : option nat :=
  match s with
  | EmptyString => None
  | String c' rest =>
      match str_rfind c rest with
      | Some i => Some (S i)
      | None => if Ascii.eqb c c' then Some 0 else None
      end
  end.

(** [c in s] for a one-character [c]. *)
Definition str_contains (c : ascii) (s : string) : bool :=
  match str_find c s with Some _ => true | None => false end.

(** [s[a:b]] for [0 <= a], [0 <= b]: empty when [b <= a]. *)
Definition py_slice (s : string) (a b : nat) : string :=
  substring a (b - a) s.

(** [l[-k:]]: the last [min k (len l)] elements. *)
Definition py_tail {A} (k : nat) (l : list A) : list A :=
  skipn (length l - k) l.

(** [l[i]] with Python's negative indices; [None] is an [IndexError]. *)
Definition py_index {A} (l : list A) (i : Z) : option A :=
  if (i <? 0)%Z then
    if (Z.of_nat (length l) + i <? 0)%Z then None
    else nth_error l (Z.to_nat (Z.of_nat (length l) + i))
  else nth_error l (Z.to_nat i).

Definition char (n : nat) : string := String (ascii_of_nat n) EmptyString.
Definition NL : string := char 10.
Definition DQ : string := char 34.

(** ** A model of [json.loads] used to run concrete examples

    The graph below takes the decoder as a parameter; [json_loads] instantiates
    it for concrete outputs.  It follows the grammar accepted by Python's
    [json] module (strict mode: no raw control characters in strings; [NaN],
    [Infinity] and [-Infinity] accepted).  A [\uXXXX] escape is stored as the
    UTF-8 bytes of its code point; surrogate pairs are not combined. *)
Module Json.
Local Open Scope nat_scope.
Local Open Scope list_scope.

Definition is_ws (c : ascii) : bool :=
  let n := nat_of_ascii c in (n =? 32) || (n =? 9) || (n =? 10) || (n =? 13).

Fixpoint skip_ws (l : list ascii) : list ascii :=
  match l with
  | c :: r => if is_ws c then skip_ws r else l
  | [] => []
  end.

Definition is_digit (c : ascii) : bool :=
  let n := nat_of_ascii c in (48 <=? n) && (n <=? 57).

Fixpoint take_digits (l : list ascii) : list ascii * list ascii :=
  match l with
  | c :: r => if is_digit c then let '(d, r') := take_digits r in (c :: d, r') else ([], l)
  | [] => ([], [])
  end.

Definition hex_val (c : ascii) : option nat :=
  let n := nat_of_ascii c in
  if (48 <=? n) && (n <=? 57) then Some (n - 48)
  else if (97 <=? n) && (n <=? 102) then Some (n - 87)
  else if (65 <=? n) && (n <=? 70) then Some (n - 55)
  else None.

Definition utf8 (cp : nat) : list ascii :=
  if cp <? 128 then [ascii_of_nat cp]
  else if cp <? 2048 then
    [ascii_of_nat (192 + cp / 64); ascii_of_nat (128 + cp mod 64)]
  else
    [ascii_of_nat (224 + cp / 4096); ascii_of_nat (128 + (cp / 64) mod 64);
     ascii_of_nat (128 + cp mod 64)].

(** Single-character escapes: quote, backslash, slash, b, f, n, r, t. *)
Definition simple_escape (e : nat) : option nat :=
  if e =? 34 then Some 34 else if e =? 92 then Some 92 else if e =? 47 then Some 47
  else if e =? 98 then Some 8 else if e =? 102 then Some 12 else if e =? 110 then Some 10
  else if e =? 114 then Some 13 else if e =? 116 then Some 9 else None.

(** Body of a string literal, after the opening quote. *)
Fixpoint parse_str (l : list ascii) : option (list ascii * list ascii) :=
  match l with
  | [] => None
  | c :: r =>
      let n := nat_of_ascii c in
      if n =? 34 then Some ([], r)
      else if n <? 32 then None
      else if n =? 92 then
        match r with
        | e :: r' =>
            match simple_escape (nat_of_ascii e) with
            | Some k =>
                match parse_str r' with
                | Some (s, rest) => Some (ascii_of_nat k :: s, rest)
                | None => None
                end
            | None =>
                if nat_of_ascii e =? 117 then
                  match r' with
                  | h1 :: h2 :: h3 :: h4 :: r'' =>
                      match hex_val h1, hex_val h2, hex_val h3, hex_val h4 with
                      | Some a, Some b, Some c', Some d =>
                          match parse_str r'' with
                          | Some (s, rest) =>
                              Some (app (utf8 (((a * 16 + b) * 16 + c') * 16 + d)) s, rest)
                          | None => None
                          end
                      | _, _, _, _ => None
                      end
                  | _ => None
                  end
                else None
            end
        | [] => None
        end
      else match parse_str r with
           | Some (s, rest) => Some (c :: s, rest)
           | None => None
           end
  end.

(** Number token: [-?(0|[1-9][0-9]* )(.[0-9]+)?([eE][-+]?[0-9]+)?], or the
    names [NaN], [Infinity], [-Infinity]. *)
Definition parse_frac (l : list ascii) : option (list ascii * list ascii) :=
  match l with
  | c :: r =>
      if Ascii.eqb c "." then
        let '(d, r') := take_digits r in
        match d with [] => None | _ => Some (c :: d, r') end
      else Some ([], l)
  | [] => Some ([], [])
  end.

Definition parse_exp (l : list ascii) : option (list ascii * list ascii) :=
  match l with
  | c :: r =>
      if Ascii.eqb c "e" || Ascii.eqb c "E" then
        let '(sgn, r1) := match r with
                          | s :: r1 => if Ascii.eqb s "+" || Ascii.eqb s "-" then ([s], r1) else ([], r)
                          | [] => ([], [])
                          end in
        let '(d, r2) := take_digits r1 in
        match d with [] => Some ([], l) | _ => Some (c :: sgn ++ d, r2) end
      else Some ([], l)
  | [] => Some ([], [])
  end.

Definition parse_number (l : list ascii) : option (list ascii * list ascii) :=
  let '(neg, l1) := match l with
                    | c :: r => if Ascii.eqb c "-" then (["-"%char], r) else ([], l)
                    | [] => ([], [])
                    end in
  let int_part :=
    match l1 with
    | c :: r =>
        if Ascii.eqb c "0" then Some ([c], r)
        else if is_digit c then let '(d, r') := take_digits r in Some (c :: d, r')
        else None
    | [] => None
    end in
  match int_part with
  | None => None
  | Some (ip, l2) =>
      match parse_frac l2 with
      | None => Some (neg ++ ip, l2)
      | Some (fp, l3) =>
          match parse_exp l3 with
          | Some (ep, l4) => Some (neg ++ ip ++ fp ++ ep, l4)
          | None => Some (neg ++ ip ++ fp, l3)
          end
      end
  end.

Fixpoint starts_with (p l : list ascii) : option (list ascii) :=
  match p, l with
  | [], _ => Some l
  | c :: p', c' :: l' => if Ascii.eqb c c' then starts_with p' l' else None
  | _ :: _, [] => None
  end.

Definition lit (s : string) : list ascii := list_ascii_of_string s.

(** One JSON value, after leading whitespace; [fuel] bounds the nesting. *)
Fixpoint parse_value (fuel : nat) (l : list ascii) : option (jval * list ascii) :=
  match fuel with
  | O => None
  | S fuel' =>
    let l := skip_ws l in
    match l with
    | [] => None
    | c :: r =>
      match nat_of_ascii c with
      | 34 => match parse_str r with
              | Some (s, rest) => Some (JStr (string_of_list_ascii s), rest)
              | None => None
              end
      | 123 =>
          match skip_ws r with
          | d :: r' => if Ascii.eqb d "}" then Some (JObj [], r')
                       else parse_members fuel' (skip_ws r) []
          | [] => None
          end
      | 91 =>
          match skip_ws r with
          | d :: r' => if Ascii.eqb d "]" then Some (JArr [], r')
                       else parse_elements fuel' (skip_ws r) []
          | [] => None
          end
      | _ =>
          match starts_with (lit "null") l with Some r' => Some (JNull, r') | None =>
          match starts_with (lit "true") l with Some r' => Some (JBool true, r') | None =>
          match starts_with (lit "false") l with Some r' => Some (JBool false, r') | None =>
          match starts_with (lit "NaN") l with Some r' => Some (JNum "NaN", r') | None =>
          match starts_with (lit "Infinity") l with Some r' => Some (JNum "Infinity", r') | None =>
          match starts_with (lit "-Infinity") l with Some r' => Some (JNum "-Infinity", r') | None =>
          match parse_number l with
          | Some (n, r') => Some (JNum (string_of_list_ascii n), r')
          | None => None
          end end end end end end end
      end
    end
  end
(** Object members [ "key" : value (, ...)* } ], collected in order. *)
with parse_members (fuel : nat) (l : list ascii) (acc : list (string * jval))
  : option (jval * list ascii) :=
  match fuel with
  | O => None
  | S fuel' =>
    match skip_ws l with
    | q :: r =>
        if nat_of_ascii q =? 34 then
          match parse_str r with
          | Some (k, r1) =>
              match skip_ws r1 with
              | col :: r2 =>
                  if Ascii.eqb col ":" then
                    match parse_value fuel' r2 with
                    | Some (v, r3) =>
                        let acc' := acc ++ [(string_of_list_ascii k, v)] in
                        match skip_ws r3 with
                        | sep :: r4 =>
                            if Ascii.eqb sep "}" then Some (JObj acc', r4)
                            else if Ascii.eqb sep "," then parse_members fuel' r4 acc'
                            else None
                        | [] => None
                        end
                    | None => None
                    end
                  else None
              | [] => None
              end
          | None => None
          end
        else None
    | [] => None
    end
  end
(** Array elements [ value (, value)* ] ]. *)
with parse_elements (fuel : nat) (l : list ascii) (acc : list jval)
  : option (jval * list ascii) :=
  match fuel with
  | O => None
  | S fuel' =>
    match parse_value fuel' l with
    | Some (v, r1) =>
        let acc' := acc ++ [v] in
        match skip_ws r1 with
        | sep :: r2 =>
            if Ascii.eqb sep "]" then Some (JArr acc', r2)
            else if Ascii.eqb sep "," then parse_elements fuel' r2 acc'
            else None
        | [] => None
        end
    | None => None
    end
  end.

(** [json.loads(s)]: [None] when it raises. *)
Definition json_loads (s : string) : option jval :=
  let l := list_ascii_of_string s in
  match parse_value (S (length l)) l with
  | Some (v, rest) => match skip_ws rest with [] => Some v | _ => None end
  | None => None
  end.

End Json.

(** [str(n)] for a non-negative integer. *)
Definition str_nat (n : nat) : string := NilEmpty.string_of_uint (Nat.to_uint n).

(** [s * n]. *)
Fixpoint str_repeat (n : nat) (s : string) : string :=
  match n with O => "" | S n' => s ++ str_repeat n' s end.

(** Python's outcome of a call that may raise: [str(e)] is kept. *)
Inductive Raises (A : Type) : Type :=
| Returns (a : A)
| Raised (err : string).
Arguments Returns {A} a.
Arguments Raised {A} err.

(** ** Conversation state ([graph/state.py]) *)

(** A cached email summary and a cached calendar event, as the list tools
    store them in [deps.emails] / [deps.events]. *)
Record Email := mkEmail { email_id : string; email_subject : string; email_from : string }.
Record Event := mkEvent { event_id : string; event_summary : string }.

(** A message as held in [state["messages"]].  Nodes return
    [{"role": r, "content": c}] dicts; the [add_messages] reducer stores them
    as message objects whose [type] is ["human"] for role ["user"] and ["ai"]
    for role ["assistant"]. *)
Record Msg := mkMsg { msg_type : string; msg_content : string }.

Definition message_of_dict (role content : string) : Msg :=
  mkMsg (if String.eqb role "user" then "human"
         else if String.eqb role "assistant" then "ai" else role) content.

(** [UnifiedState]; an [option] field is [None] when the key is absent. *)
Record UnifiedState := mkState {
  messages : list Msg;
  user_query : string;
  agent_response : string;
  continue_conversation : option bool;
  agent_type : option jval;
  execution_order : option jval;
  gmail_instruction : option jval;
  calendar_instruction : option jval;
  emails : option (list Email);
  events : option (list Event) }.

(** A node's partial state update (the dict a node returns, or
    [Command.update]); [u_messages] are the dicts handed to [add_messages]. *)
Record Update := mkUpdate {
  u_user_query : option string;
  u_agent_response : option string;
  u_messages : list (string * string);
  u_continue : option bool;
  u_agent_type : option jval;
  u_execution_order : option jval;
  u_gmail_instruction : option jval;
  u_calendar_instruction : option jval;
  u_emails : option (list Email);
  u_events : option (list Event) }.

Definition no_update : Update :=
  mkUpdate None None [] None None None None None None None.

Definition override {A} (u : option A) (old : A) : A := get_or u old.

(** LangGraph folds an update into the state: [messages] through
    [add_messages] (append), every other key by overwriting. *)
Definition apply_update (u : Update) (st : UnifiedState) : UnifiedState :=
  {| messages := messages st ++ map (fun rc => message_of_dict (fst rc) (snd rc)) (u_messages u);
     user_query := override (u_user_query u) (user_query st);
     agent_response := override (u_agent_response u) (agent_response st);
     continue_conversation :=
       match u_continue u with Some b => Some b | None => continue_conversation st end;
     agent_type := match u_agent_type u with Some v => Some v | None => agent_type st end;
     execution_order :=
       match u_execution_order u with Some v => Some v | None => execution_order st end;
     gmail_instruction :=
       match u_gmail_instruction u with Some v => Some v | None => gmail_instruction st end;
     calendar_instruction :=
       match u_calendar_instruction u with Some v => Some v | None => calendar_instruction st end;
     emails := match u_emails u with Some l => Some l | None => emails st end;
     events := match u_events u with Some l => Some l | None => events st end |}.

(** [Command(goto=..., update=...)]. *)
Record Command := mkCommand { goto : string; update : Update }.

(** [langgraph.graph.END]. *)
Definition END : string := "__end__".

(** ** Routing decision ([orchestrator_node], lines 219-243) *)

Record RoutingDecision := mkDecision {
  rd_agent_type : string;
  rd_execution_order : jval;
  rd_gmail_instruction : jval;
  rd_calendar_instruction : jval }.

Definition default_decision (user_query : string) : RoutingDecision :=
  mkDecision "gmail" (JStr "gmail_first") (JStr user_query) (JStr user_query).

(** [response_text[json_start:json_end]]. *)
Definition json_span (response_text : string) : string :=
  let json_start := get_or (str_find "{" response_text) 0 in
  let json_end := get_or (str_rfind "}" response_text) 0 + 1 in
  py_slice response_text json_start json_end.

(** Outcome of the orchestrator's [orchestrator.run(user_query)]. *)
Inductive OrchOutcome :=
| OrchRaised
| OrchOutput (output : string).

(** The result of a specialist's [agent.run]: its [output], the tool names
    seen by [stream_handler], and [deps.emails] / [deps.events] afterwards
    (the tools only ever reassign that list). *)
Inductive RunResult (A : Type) : Type :=
| RunRaised (err : string)
| RunDone (output : string) (tool_calls : list string) (cache : list A).
Arguments RunRaised {A} err.
Arguments RunDone {A} output tool_calls cache.

(** Python's [type(v).__name__] for a decoded JSON value. *)
Definition py_type_name (v : jval) : string :=
  match v with
  | JNull => "NoneType"
  | JBool _ => "bool"
  | JNum t =>
      if str_contains "." t || str_contains "e" t || str_contains "E" t
         || str_contains "N" t || str_contains "I" t then "float" else "int"
  | JStr _ => "str"
  | JArr _ => "list"
  | JObj _ => "dict"
  end.

(** [str(e)] of the [TypeError] raised by [str + v] for a non-[str] [v]. *)
Definition concat_type_error (v : jval) : string :=
  "can only concatenate str (not " ++ DQ ++ py_type_name v ++ DQ ++ ") to str".

(** ** Ordinal references in the Gmail tools *)
Module GmailToolsOrdinal.

(** Fields of [gmail_service.get_email(email_id)] used by [read_email]. *)
Record EmailDetail := mkDetail {
  detail_subject : string; detail_from : string; detail_date : string; detail_body : string }.

(** [email['id']] of [emails[email_number - 1]]; [Raised] is an [IndexError]. *)
Definition email_at (emails : list Email) (email_number : Z) : Raises string :=
  match py_index emails (email_number - 1) with
  | Some e => Returns (email_id e)
  | None => Raised "list index out of range"
  end.

Definition invalid_number_msg (emails : list Email) : string :=
  "Invalid email number. Please choose between 1 and " ++ str_nat (length emails) ++ ".".

Definition format_details (email : EmailDetail) : string :=
  String.concat NL
    [NL ++ str_repeat 60 "=";
     "EMAIL DETAILS";
     str_repeat 60 "=";
     NL ++ "Subject: " ++ detail_subject email;
     "From: " ++ detail_from email;
     "Date: " ++ detail_date email;
     NL ++ str_repeat 60 "-";
     NL ++ substring 0 1500 (detail_body email);
     NL ++ str_repeat 60 "-";
     str_repeat 60 "="].

(** [tools/gmail_tools/read_email.py]. *)
Definition read_email (get_email : string -> option EmailDetail)
  (emails : list Email) (email_number : Z) : Raises string :=
  match emails with
  | [] => Returns "No emails in context. Please list or search for emails first."
  | _ =>
    if (email_number <? 1)%Z || (Z.of_nat (length emails) <? email_number)%Z then
      Returns (invalid_number_msg emails)
    else
      match email_at emails email_number with
      | Raised e => Raised e
      | Returns email_id =>
          match get_email email_id with
          | None => Returns "Could not retrieve email details."
          | Some email => Returns (format_details email)
          end
      end
  end.

(** [tools/gmail_tools/reply_to_email.py]. *)
Definition reply_to_email (service_reply : string -> string -> bool)
  (emails : list Email) (email_number : Z) (reply_body : string) : Raises string :=
  match emails with
  | [] => Returns "No emails in context. Please list emails first."
  | _ =>
    if (email_number <? 1)%Z || (Z.of_nat (length emails) <? email_number)%Z then
      Returns (invalid_number_msg emails)
    else
      match email_at emails email_number with
      | Raised e => Raised e
      | Returns email_id =>
          if service_reply email_id reply_body
          then Returns ("Reply sent successfully to email " ++ str_nat (Z.to_nat email_number))
          else Returns "Failed to send reply"
      end
  end.

End GmailToolsOrdinal.

(** ** The Gmail tools that act on one email of the cached list *)

Module GmailTools.

Import GmailToolsOrdinal.

(** A label as [gmail_service.get_labels()] returns it: [{'id', 'name'}]. *)
Record Label := mkLabel { lbl_id : string; lbl_name : string }.

(** The [GmailTools] service methods the tools call.  Each answers as the
    service does for the given arguments. *)
Record GmailService := mkService {
  svc_archive_email : string -> bool;
  svc_trash_email : string -> bool;
  svc_delete_email : string -> bool;
  svc_mark_as_read : string -> bool;
  svc_get_labels : list Label;
  svc_add_label : string -> string -> bool;
  svc_remove_label : string -> string -> bool;
  svc_create_draft_reply : string -> string -> option string }.

(** The service calls a tool makes, in order. *)
Inductive GmailCall :=
| CallArchive (email_id : string)
| CallTrash (email_id : string)
| CallDelete (email_id : string)
| CallMarkRead (email_id : string)
| CallGetLabels
| CallAddLabel (email_id label_id : string)
| CallRemoveLabel (email_id label_id : string)
| CallCreateDraftReply (email_id reply_body : string).

(** The body shared by [archive_email], [trash_email], [delete_email] and
    [mark_email_as_read]: empty-cache and range checks, then one service call
    on [emails[email_number - 1]['id']]. *)
Definition single_email_action (call : string -> GmailCall) (service : string -> bool)
  (success_msg failure_msg : string) (emails : list Email) (email_number : Z)
  : Raises string * list GmailCall :=
  match emails with
  | [] => (Returns "No emails in context. Please list emails first.", [])
  | _ =>
    if (email_number <? 1)%Z || (Z.of_nat (length emails) <? email_number)%Z then
      (Returns (invalid_number_msg emails), [])
    else
      match email_at emails email_number with
      | Raised e => (Raised e, [])
      | Returns email_id =>
          (Returns (if service email_id then success_msg else failure_msg), [call email_id])
      end
  end.

(** [tools/gmail_tools/archive_email.py]. *)
Definition archive_email (svc : GmailService) (emails : list Email) (email_number : Z) :=
  single_email_action CallArchive (svc_archive_email svc)
    ("Email " ++ str_nat (Z.to_nat email_number) ++ " archived successfully")
    "Failed to archive email" emails email_number.

(** [tools/gmail_tools/trash_email.py]. *)
Definition trash_email (svc : GmailService) (emails : list Email) (email_number : Z) :=
  single_email_action CallTrash (svc_trash_email svc)
    ("Email " ++ str_nat (Z.to_nat email_number) ++ " moved to trash successfully")
    "Failed to trash email" emails email_number.

(** [tools/gmail_tools/delete_email.py]. *)
Definition delete_email (svc : GmailService) (emails : list Email) (email_number : Z) :=
  single_email_action CallDelete (svc_delete_email svc)
    ("Email " ++ str_nat (Z.to_nat email_number) ++ " permanently deleted")
    "Failed to delete email" emails email_number.

(** [tools/gmail_tools/mark_read.py]. *)
Definition mark_email_as_read (svc : GmailService) (emails : list Email) (email_number : Z) :=
  single_email_action CallMarkRead (svc_mark_as_read svc)
    ("Email " ++ str_nat (Z.to_nat email_number) ++ " marked as read successfully")
    "Failed to mark email as read" emails email_number.

(** [label['name'].upper() == label_name.upper() or label['id'].upper() == label_name.upper()];
    [upper] is [str.upper]. *)
Definition label_matches (upper : string -> string) (label_name : string) (label : Label) : bool :=
  String.eqb (upper (lbl_name label)) (upper label_name) ||
  String.eqb (upper (lbl_id label)) (upper label_name).

(** The [for label in labels: ... break] loop: the id of the first match. *)
Definition find_label_id (upper : string -> string) (labels : list Label) (label_name : string)
  : option string :=
  match find (label_matches upper label_name) labels with
  | Some label => Some (lbl_id label)
  | None => None
  end.

(** The body shared by [add_label_to_email] and [remove_label_from_email]. *)
Definition label_action (call : string -> string -> GmailCall) (service : string -> string -> bool)
  (upper : string -> string) (labels : list Label) (success_msg failure_msg : string)
  (emails : list Email) (email_number : Z) (label_name : string)
  : Raises string * list GmailCall :=
  match emails with
  | [] => (Returns "No emails in context. Please list emails first.", [])
  | _ =>
    if (email_number <? 1)%Z || (Z.of_nat (length emails) <? email_number)%Z then
      (Returns (invalid_number_msg emails), [])
    else
      let not_found := Returns ("Label '" ++ label_name
                                ++ "' not found. Use get_labels to see available labels.") in
      match find_label_id upper labels label_name with
      | None => (not_found, [CallGetLabels])
      | Some label_id =>
          if String.eqb label_id "" then (not_found, [CallGetLabels])
          else
            match email_at emails email_number with
            | Raised e => (Raised e, [CallGetLabels])
            | Returns email_id =>
                (Returns (if service email_id label_id then success_msg else failure_msg),
                 [CallGetLabels; call email_id label_id])
            end
      end
  end.

(** [tools/gmail_tools/add_label.py]. *)
Definition add_label_to_email (upper : string -> string) (svc : GmailService)
  (emails : list Email) (email_number : Z) (label_name : string) :=
  label_action CallAddLabel (svc_add_label svc) upper (svc_get_labels svc)
    ("Label '" ++ label_name ++ "' added to email " ++ str_nat (Z.to_nat email_number))
    "Failed to add label" emails email_number label_name.

(** [tools/gmail_tools/remove_label.py]. *)
Definition remove_label_from_email (upper : string -> string) (svc : GmailService)
  (emails : list Email) (email_number : Z) (label_name : string) :=
  label_action CallRemoveLabel (svc_remove_label svc) upper (svc_get_labels svc)
    ("Label '" ++ label_name ++ "' removed from email " ++ str_nat (Z.to_nat email_number))
    "Failed to remove label" emails email_number label_name.

(** [tools/gmail_tools/create_draft_reply.py]; [Raised] is an [IndexError]. *)
Definition create_draft_reply (svc : GmailService) (emails : list Email) (email_number : Z)
  (reply_body : string) : Raises string * list GmailCall :=
  match emails with
  | [] => (Returns "No emails available. Please list emails first using list_emails or search_emails.", [])
  | _ =>
    if (email_number <? 1)%Z || (Z.of_nat (length emails) <? email_number)%Z then
      (Returns (invalid_number_msg emails), [])
    else
      match py_index emails (email_number - 1) with
      | None => (Raised "list index out of range", [])
      | Some email =>
          let draft_id := svc_create_draft_reply svc (email_id email) reply_body in
          (Returns
             (match draft_id with
              | Some d =>
                  if String.eqb d "" then "Failed to create draft reply"
                  else "Draft reply created successfully!" ++ NL ++ NL ++ "Replying to: "
                       ++ email_from email ++ NL ++ "Subject: Re: " ++ email_subject email
                       ++ NL ++ NL ++ "You can review and send this draft reply from Gmail. Draft ID: " ++ d
              | None => "Failed to create draft reply"
              end),
           [CallCreateDraftReply (email_id email) reply_body])
      end
  end.

(** [GmailTools.create_draft_reply] in [core.py]: the reply subject. *)
Definition reply_subject (original_subject : string) : string :=
  if String.prefix "Re:" original_subject then original_subject else "Re: " ++ original_subject.

(** [{h['name']: h['value'] for h in headers}.get(k, d)]: the last header
    with a given name wins. *)
Fixpoint header_get (headers : list (string * string)) (k d : string) : string :=
  match headers with
  | [] => d
  | (name, value) :: rest => header_get rest k (if String.eqb name k then value else d)
  end.

(** The reply message [GmailTools.create_draft_reply] puts in the draft, from
    the original's metadata headers and thread id. *)
Record DraftMessage := mkDraftMessage {
  draft_to : string; draft_subject : string; draft_in_reply_to : option string;
  draft_body : string; draft_thread_id : string }.

Definition draft_reply_message (headers : list (string * string)) (thread_id reply_body : string)
  : DraftMessage :=
  let original_from := header_get headers "From" "" in
  let original_subject := header_get headers "Subject" "" in
  let message_id := header_get headers "Message-ID" "" in
  mkDraftMessage original_from (reply_subject original_subject)
    (if String.eqb message_id "" then None else Some message_id) reply_body thread_id.

(** [GmailTools._get_email_body]: one entry of [payload['parts']]; [part_data]
    is [part['body'].get('data')], [None] when the key is absent. *)
Record Part := mkPart { part_mime : string; part_data : option string }.

(** The payload: [parts] if present, and [payload['body']['data']] when both
    keys are present.  [decode] is
    [base64.urlsafe_b64decode(data).decode('utf-8', errors='ignore')], which
    raises on malformed base64. *)
Record Payload := mkPayload { payload_parts : option (list Part); payload_body_data : option string }.

Definition is_plain (p : Part) : bool := String.eqb (part_mime p) "text/plain".

(** The [for part in payload['parts']] loop; [all_parts] is the whole list the
    [any(...)] test looks at. *)
Fixpoint body_loop (decode : string -> Raises string) (all_parts parts : list Part) : Raises string :=
  match parts with
  | [] => Returns ""
  | part :: rest =>
      if String.eqb (part_mime part) "text/plain" then
        let data := get_or (part_data part) "" in
        if String.eqb data "" then body_loop decode all_parts rest else decode data
      else if String.eqb (part_mime part) "text/html" && negb (existsb is_plain all_parts) then
        let data := get_or (part_data part) "" in
        if String.eqb data "" then body_loop decode all_parts rest else decode data
      else body_loop decode all_parts rest
  end.

Definition get_email_body (decode : string -> Raises string) (payload : Payload) : Raises string :=
  match payload_parts payload with
  | Some parts => body_loop decode parts parts
  | None =>
      match payload_body_data payload with
      | Some data => decode data
      | None => Returns ""
      end
  end.

End GmailTools.

(** ** Calendar tools *)

Module CalendarTools.

(** Python's [needle in haystack] on strings. *)
Fixpoint str_in (needle haystack : string) : bool :=
  String.prefix needle haystack ||
  match haystack with
  | EmptyString => false
  | String _ rest => str_in needle rest
  end.

(** [f"{x}"] of a value that is a [str] or [None]. *)
Definition py_str_opt (o : option string) : string :=
  match o with Some s => s | None => "None" end.

(** An entry of [ctx.deps.events] as [lookup_event_by_reference] reads it:
    [event.get('id')] and [event.get('summary')]. *)
Record CalEvent := mkCalEvent { cev_id : option string; cev_summary : option string }.

(** [number_words], in its insertion order. *)
Definition number_words : list (string * nat) :=
  [("first", 1); ("second", 2); ("third", 3); ("fourth", 4); ("fifth", 5);
   ("1st", 1); ("2nd", 2); ("3rd", 3); ("4th", 4); ("5th", 5)].

Fixpoint assoc {A} (k : string) (m : list (string * A)) : option A :=
  match m with
  | [] => None
  | (k', v) :: rest => if String.eqb k' k then Some v else assoc k rest
  end.

(** The [if event_number is not None] branch. *)
Definition number_reply (events : list CalEvent) (event_number : nat) : Raises string :=
  if Nat.leb 1 event_number && Nat.leb event_number (length events) then
    match nth_error events (event_number - 1) with
    | Some event =>
        Returns ("Event ID: " ++ py_str_opt (cev_id event) ++ " (Event #" ++ str_nat event_number
                 ++ ": " ++ get_or (cev_summary event) "Untitled" ++ ")")
    | None => Raised "list index out of range"
    end
  else Returns ("Event number " ++ str_nat event_number ++ " not found. Only "
                ++ str_nat (length events) ++ " events in context.").

(** [ref_lower in event_title or event_title in ref_lower] for
    [event_title = event.get('summary', '').lower()]. *)
Definition title_matches (lower : string -> string) (ref_lower : string) (event : CalEvent) : bool :=
  let event_title := lower (get_or (cev_summary event) "") in
  str_in ref_lower event_title || str_in event_title ref_lower.

(** The title loop: the position and the event of the first match. *)
Fixpoint title_loop (lower : string -> string) (ref_lower : string) (idx : nat) (events : list CalEvent)
  : option (nat * CalEvent) :=
  match events with
  | [] => None
  | event :: rest =>
      if title_matches lower ref_lower event then Some (idx, event)
      else title_loop lower ref_lower (S idx) rest
  end.

(** [tools/calendar_tools/lookup_event.py].  [lower], [strip], [isdigit] and
    [int] are Python's [str.lower], [str.strip], [str.isdigit] and [int]. *)
Definition lookup_event_by_reference (lower strip : string -> string) (isdigit : string -> bool)
  (int : string -> nat) (events : list CalEvent) (reference : string) : Raises string :=
  match events with
  | [] => Returns "No events in context. Please list events first using list_upcoming_events."
  | _ =>
    let ref_lower := strip (lower reference) in
    let event_number :=
      match assoc ref_lower number_words with
      | Some n => Some n
      | None =>
          if isdigit ref_lower then Some (int ref_lower)
          else match find (fun wn => str_in (fst wn) ref_lower) number_words with
               | Some (_, num) => Some num
               | None => None
               end
      end in
    match event_number with
    | Some n => number_reply events n
    | None =>
        let ref_lower := lower reference in
        match title_loop lower ref_lower 0 events with
        | Some (idx, event) =>
            Returns ("Event ID: " ++ py_str_opt (cev_id event) ++ " (Event #" ++ str_nat (idx + 1)
                     ++ ": " ++ py_str_opt (cev_summary event) ++ ")")
        | None =>
            let available_events :=
              String.concat ", "
                (map (fun ie => "#" ++ str_nat (fst ie + 1) ++ ": " ++ py_str_opt (cev_summary (snd ie)))
                     (combine (seq 0 (length events)) events)) in
            Returns ("Could not find event matching '" ++ reference ++ "'. Available events: "
                     ++ available_events)
        end
    end
  end.

(** An attendee dict of an event: the keys the attendee functions read or
    write ([email], [responseStatus], [organizer]); [None] is an absent key.
    Other keys are carried along unchanged and not represented. *)
Record Attendee := mkAttendee {
  att_email : option string; att_response_status : option string; att_organizer : option bool }.

Module Core.

(** [{a['email'] for a in existing_attendees}]; [Raised] is the [KeyError]. *)
Fixpoint attendee_emails (attendees : list Attendee) : Raises (list string) :=
  match attendees with
  | [] => Returns []
  | a :: rest =>
      match att_email a with
      | None => Raised "'email'"
      | Some e =>
          match attendee_emails rest with
          | Raised err => Raised err
          | Returns es => Returns (e :: es)
          end
      end
  end.

(** [for email in attendee_emails: if email not in existing_emails: existing_attendees.append({'email': email})]. *)
Fixpoint add_loop (existing_emails : list string) (existing_attendees : list Attendee)
  (emails : list string) : list Attendee :=
  match emails with
  | [] => existing_attendees
  | email :: rest =>
      add_loop existing_emails
        (if existsb (String.eqb email) existing_emails then existing_attendees
         else (existing_attendees ++ [mkAttendee (Some email) None None])%list)
        rest
  end.

(** The attendee list [CalendarTools.add_attendees] sends back with
    [events().update], from the event's current [attendees]. *)
Definition add_attendees (existing_attendees : list Attendee) (attendee_emails_arg : list string)
  : Raises (list Attendee) :=
  match attendee_emails existing_attendees with
  | Raised err => Raised err
  | Returns existing_emails => Returns (add_loop existing_emails existing_attendees attendee_emails_arg)
  end.

(** [[a for a in existing_attendees if a['email'] not in emails_to_remove]]
    of [CalendarTools.remove_attendees]. *)
Fixpoint remove_attendees (existing_attendees : list Attendee) (emails_to_remove : list string)
  : Raises (list Attendee) :=
  match existing_attendees with
  | [] => Returns []
  | a :: rest =>
      match att_email a with
      | None => Raised "'email'"
      | Some e =>
          match remove_attendees rest emails_to_remove with
          | Raised err => Raised err
          | Returns kept => Returns (if existsb (String.eqb e) emails_to_remove then kept else a :: kept)
          end
      end
  end.

Definition valid_statuses : list string := ["accepted"; "declined"; "tentative"; "needsAction"].

Definition opt_str_eqb (a b : option string) : bool :=
  match a, b with
  | Some x, Some y => String.eqb x y
  | None, None => true
  | _, _ => false
  end.

(** The [for attendee in attendees: ... break] loop: [None] when no attendee
    has the email. *)
Fixpoint set_response (attendees : list Attendee) (attendee_email : option string)
  (response_status : string) : option (list Attendee) :=
  match attendees with
  | [] => None
  | a :: rest =>
      if opt_str_eqb (att_email a) attendee_email then
        Some (mkAttendee (att_email a) (Some response_status) (att_organizer a) :: rest)
      else option_map (cons a) (set_response rest attendee_email response_status)
  end.

(** [CalendarTools.update_rsvp_status]: the attendee list it writes back, or
    [None] when it returns [None] before any request.  [calendar_id] is
    [calendar.get('id')] of the primary calendar and [organizer_email] is
    [event.get('organizer', {}).get('email')]. *)
Definition update_rsvp_status (calendar_id organizer_email : option string)
  (attendees : list Attendee) (response_status : string) (attendee_email : option string)
  : option (list Attendee) :=
  if negb (existsb (String.eqb response_status) valid_statuses) then None
  else
    let attendee_email :=
      match attendee_email with
      | Some e => if String.eqb e "" then calendar_id else Some e
      | None => calendar_id
      end in
    match set_response attendees attendee_email response_status with
    | Some updated => Some updated
    | None =>
        Some (attendees ++ [mkAttendee attendee_email (Some response_status)
                              (Some (opt_str_eqb organizer_email attendee_email))])%list
    end.

End Core.

(** [status_mapping] of [tools/calendar_tools/update_rsvp.py]. *)
Definition status_mapping : list (string * string) :=
  [("going", "accepted"); ("accepted", "accepted"); ("not going", "declined");
   ("declined", "declined"); ("maybe", "tentative"); ("tentative", "tentative");
   ("needsAction", "needsAction"); ("no response", "needsAction")].

(** [tools/calendar_tools/update_rsvp.py]: [status_mapping.get(status.lower(), status)]
    handed to the core method. *)
Definition update_rsvp_status (lower : string -> string) (calendar_id organizer_email : option string)
  (attendees : list Attendee) (status : string) (attendee_email : option string)
  : option (list Attendee) :=
  let normalized_status := get_or (assoc (lower status) status_mapping) status in
  Core.update_rsvp_status calendar_id organizer_email attendees normalized_status attendee_email.

(** [str.lower] on ASCII text. *)
Definition ascii_lower (c : ascii) : ascii :=
  let n := nat_of_ascii c in
  if Nat.leb 65 n && Nat.leb n 90 then ascii_of_nat (n + 32) else c.

Fixpoint py_lower (s : string) : string :=
  match s with
  | EmptyString => EmptyString
  | String c rest => String (ascii_lower c) (py_lower rest)
  end.

(** [str.strip], [str.isdigit] and [int] on ASCII text, to run the lookup on
    concrete references. *)
Definition py_isspace (c : ascii) : bool :=
  let n := nat_of_ascii c in
  (Nat.leb 9 n && Nat.leb n 13) || (Nat.leb 28 n && Nat.leb n 32).

Fixpoint lstrip (l : list ascii) : list ascii :=
  match l with
  | c :: rest => if py_isspace c then lstrip rest else l
  | [] => []
  end.

Definition py_strip (s : string) : string :=
  string_of_list_ascii (rev (lstrip (rev (lstrip (list_ascii_of_string s))))).

Definition py_isdigit (s : string) : bool :=
  negb (String.eqb s "") &&
  forallb (fun c => Nat.leb 48 (nat_of_ascii c) && Nat.leb (nat_of_ascii c) 57) (list_ascii_of_string s).

Definition py_int (s : string) : nat :=
  fold_left (fun acc c => acc * 10 + (nat_of_ascii c - 48)) (list_ascii_of_string s) 0.

(** The number of attendees with a given email. *)
Definition count_email (email : string) (attendees : list Attendee) : nat :=
  length (filter (fun a => Core.opt_str_eqb (att_email a) (Some email)) attendees).

End CalendarTools.

(** ** Concrete collaborators for running examples *)
Module Concrete.

Definition msg_str (m : Msg) : string := "content='" ++ msg_content m ++ "'".
Definition no_raise : option string := None.
Definition q (s : string) : string := DQ ++ s ++ DQ.

(** An orchestrator that always answers [output]. *)
Definition orch (output : string) : string -> OrchOutcome := fun _ => OrchOutput output.

(** A specialist that answers [response] after calling [tools], leaving the cache. *)
Definition agent {A} (response : string) (tools : list string) : jval -> list A -> RunResult A :=
  fun _ cache => RunDone response tools cache.

Definition start_state (query : string) (history : list Msg) : UnifiedState :=
  {| messages := history; user_query := query; agent_response := "";
     continue_conversation := Some true; agent_type := None; execution_order := None;
     gmail_instruction := None; calendar_instruction := None;
     emails := None; events := None |}.

(** The state the orchestrator leaves behind for a decision with the given
    [agent_type] and [execution_order], both instructions being the query. *)
Definition routed_state (agent order query : string) (history : list Msg) : UnifiedState :=
  {| messages := history; user_query := query; agent_response := "";
     continue_conversation := Some true; agent_type := Some (JStr agent);
     execution_order := Some (JStr order); gmail_instruction := Some (JStr query);
     calendar_instruction := Some (JStr query); emails := None; events := None |}.

(** A history of seven alternating messages. *)
Definition history7 : list Msg :=
  [mkMsg "human" "m1"; mkMsg "ai" "m2"; mkMsg "human" "m3"; mkMsg "ai" "m4";
   mkMsg "human" "m5"; mkMsg "ai" "m6"; mkMsg "human" "m7"].

(** An orchestrator answer wrapping a routing object in prose. *)
Definition routing_output (agent order : string) : string :=
  "Decision: {" ++ q "agent_type" ++ ": " ++ q agent ++ ", "
  ++ q "execution_order" ++ ": " ++ q order ++ ", "
  ++ q "reasoning" ++ ": " ++ q "r" ++ "}".

(** [str.upper] on ASCII text. *)
Definition ascii_upper (c : ascii) : ascii :=
  let n := nat_of_ascii c in
  if Nat.leb 97 n && Nat.leb n 122 then ascii_of_nat (n - 32) else c.

Fixpoint py_upper (s : string) : string :=
  match s with
  | EmptyString => EmptyString
  | String c rest => String (ascii_upper c) (py_upper rest)
  end.

(** A Gmail service whose calls all succeed, with the given labels; a draft's
    id is derived from the email id. *)
Definition gmail_service (labels : list GmailTools.Label) : GmailTools.GmailService :=
  GmailTools.mkService (fun _ => true) (fun _ => true) (fun _ => true) (fun _ => true) labels
    (fun _ _ => true) (fun _ _ => true) (fun id _ => Some ("draft-" ++ id)).

End Concrete.
(** ** Graph nodes ([graph/nodes.py]) and graph ([graph/builder.py]) *)
Section Graph.

(** [str(msg)] of a stored message object. *)
Variable msg_str : Msg -> string.
(** [json.loads]: [None] when it raises. *)
Variable json_loads : string -> option jval.
(** [orchestrator.run(user_query)]. *)
Variable orchestrator_run : string -> OrchOutcome.
(** [get_gmail_tools()] / [get_calendar_tools()]: [Some e] when they raise. *)
Variable get_gmail_tools_raises : option string.
Variable get_calendar_tools_raises : option string.
(** [agent.run(conversation_context, deps=deps, ...)] of each specialist, given
    the context and the cached list in [deps]. *)
Variable gmail_run : jval -> list Email -> RunResult Email.
Variable calendar_run : jval -> list Event -> RunResult Event.

(** *** [user_input_node] *)
Definition user_input_node (st : UnifiedState) : Update :=
  let user_query := user_query st in
  {| u_user_query := Some user_query;
     u_agent_response := None;
     u_messages := [("user", user_query)];
     u_continue := Some true;
     u_agent_type := None; u_execution_order := None;
     u_gmail_instruction := None; u_calendar_instruction := None;
     u_emails := None; u_events := None |}.

(** *** [should_continue] *)
Definition should_continue (st : UnifiedState) : string :=
  if get_or (continue_conversation st) true then "continue" else "end".

(** *** [orchestrator_node] *)

(** The four locals computed from [response_text] by the inner [try]:
    [Raised] is the [AttributeError] of [parsed.get] on a non-dict, which only
    the outer handler catches. *)
Definition parse_routing (user_query response_text : string)
  : Raises (jval * jval * jval * jval) :=
  let defaults := (JStr "gmail", JStr "gmail_first", JStr user_query, JStr user_query) in
  if str_contains "{" response_text && str_contains "}" response_text then
    match json_loads (json_span response_text) with
    | None => Returns defaults
    | Some (JObj parsed) =>
        Returns (dict_get parsed "agent_type" (JStr "gmail"),
                 dict_get parsed "execution_order" (JStr "gmail_first"),
                 dict_get parsed "gmail_instruction" (JStr user_query),
                 dict_get parsed "calendar_instruction" (JStr user_query))
    | Some _ => Raised "object has no attribute 'get'"
    end
  else Returns defaults.

(** The decision [orchestrator_node] acts on.  A non-[str] [agent_type] makes
    [agent_type.upper()] raise, which the outer handler turns into the
    default decision, as it does for a failing [orchestrator.run]. *)
Definition classify (user_query : string) (r : OrchOutcome) : RoutingDecision :=
  match r with
  | OrchRaised => default_decision user_query
  | OrchOutput response_text =>
      match parse_routing user_query response_text with
      | Raised _ => default_decision user_query
      | Returns (JStr agent_type, execution_order, gmail_instruction, calendar_instruction) =>
          mkDecision agent_type execution_order gmail_instruction calendar_instruction
      | Returns _ => default_decision user_query
      end
  end.

Definition orchestrator_node (st : UnifiedState) : Update :=
  let d := classify (user_query st) (orchestrator_run (user_query st)) in
  {| u_user_query := None;
     u_agent_response := None;
     u_messages := [];
     u_continue := if String.eqb (rd_agent_type d) "terminate" then Some false else None;
     u_agent_type := Some (JStr (rd_agent_type d));
     u_execution_order := Some (rd_execution_order d);
     u_gmail_instruction := Some (rd_gmail_instruction d);
     u_calendar_instruction := Some (rd_calendar_instruction d);
     u_emails := None; u_events := None |}.

(** *** [route_to_agent] *)
Definition route_to_agent (st : UnifiedState) : string :=
  let agent_type := get_or (agent_type st) (JStr "gmail") in
  let execution_order := get_or (execution_order st) (JStr "gmail_first") in
  if is_str agent_type "terminate" then "END"
  else if is_str agent_type "calendar" then "calendar_agent"
  else if is_str agent_type "both" then
    if is_str execution_order "calendar_first" then "calendar_agent" else "gmail_agent"
  else "gmail_agent".

(** *** Specialist nodes *)

(** One [context_parts] entry for a stored message object. *)
Definition format_msg (m : Msg) : string :=
  let role := if String.eqb (msg_type m) "" then "assistant" else msg_type m in
  let content := if String.eqb (msg_content m) "" then msg_str m else msg_content m in
  role ++ ": " ++ content.

(** The context both specialist nodes build from their instruction and
    [existing_messages]; [Raised] is the [TypeError] of [str + instruction]. *)
Definition build_conversation_context (instruction : jval) (existing_messages : list Msg)
  : Raises jval :=
  match existing_messages with
  | [] => Returns instruction
  | _ =>
    let context_parts := map format_msg (py_tail 5 existing_messages) in
    match context_parts with
    | [] => Returns instruction
    | _ =>
      match instruction with
      | JStr s =>
          Returns (JStr ("Previous conversation:" ++ NL ++ String.concat NL context_parts
                         ++ NL ++ NL ++ "Current question: " ++ s))
      | _ => Raised (concat_type_error instruction)
      end
    end
  end.

Definition specialist_update {A} (response : string) (cont : bool) (cache : option (list A))
  (set_cache : option (list A) -> Update -> Update) : Update :=
  set_cache cache
    {| u_user_query := None;
       u_agent_response := Some response;
       u_messages := [("assistant", response)];
       u_continue := Some cont;
       u_agent_type := None; u_execution_order := None;
       u_gmail_instruction := None; u_calendar_instruction := None;
       u_emails := None; u_events := None |}.

Definition set_emails (c : option (list Email)) (u : Update) : Update :=
  {| u_user_query := u_user_query u; u_agent_response := u_agent_response u;
     u_messages := u_messages u; u_continue := u_continue u;
     u_agent_type := u_agent_type u; u_execution_order := u_execution_order u;
     u_gmail_instruction := u_gmail_instruction u;
     u_calendar_instruction := u_calendar_instruction u;
     u_emails := c; u_events := u_events u |}.

Definition set_events (c : option (list Event)) (u : Update) : Update :=
  {| u_user_query := u_user_query u; u_agent_response := u_agent_response u;
     u_messages := u_messages u; u_continue := u_continue u;
     u_agent_type := u_agent_type u; u_execution_order := u_execution_order u;
     u_gmail_instruction := u_gmail_instruction u;
     u_calendar_instruction := u_calendar_instruction u;
     u_emails := u_emails u; u_events := c |}.

(** [if deps.emails: emails_update['emails'] = deps.emails]. *)
Definition cache_update {A} (cache : list A) : option (list A) :=
  match cache with [] => None | _ => Some cache end.

(** The [except Exception as e] branch of both specialist nodes. *)
Definition error_update (error_msg : string) : Update :=
  {| u_user_query := None;
     u_agent_response := Some error_msg;
     u_messages := [("assistant", error_msg)];
     u_continue := Some true;
     u_agent_type := None; u_execution_order := None;
     u_gmail_instruction := None; u_calendar_instruction := None;
     u_emails := None; u_events := None |}.

(** The [try] body of [gmail_agent_node], with the context handed to
    [agent.run] when it gets that far. *)
Definition gmail_try (st : UnifiedState) : Raises Command * option jval :=
  let user_query := user_query st in
  let agent_type := get_or (agent_type st) (JStr "gmail") in
  let gmail_instruction := get_or (gmail_instruction st) (JStr user_query) in
  let existing_messages := messages st in
  match get_gmail_tools_raises with
  | Some e => (Raised e, None)
  | None =>
    let deps_emails := get_or (emails st) [] in
    match build_conversation_context gmail_instruction existing_messages with
    | Raised e => (Raised e, None)
    | Returns conversation_context =>
      (match gmail_run conversation_context deps_emails with
       | RunRaised e => Raised e
       | RunDone response tool_calls deps_emails' =>
           let end_conversation_called := existsb (String.eqb "end_conversation") tool_calls in
           let emails_update := cache_update deps_emails' in
           let execution_order := get_or (execution_order st) (JStr "gmail_first") in
           if is_str agent_type "both" && is_str execution_order "gmail_first" then
             Returns (mkCommand "calendar_agent"
               (specialist_update response (negb end_conversation_called) emails_update set_emails))
           else if end_conversation_called then
             Returns (mkCommand END (specialist_update response false emails_update set_emails))
           else
             Returns (mkCommand "user_input" (specialist_update response true emails_update set_emails))
       end, Some conversation_context)
    end
  end.

Definition gmail_agent_node (st : UnifiedState) : Command * option jval :=
  let '(r, ctx) := gmail_try st in
  match r with
  | Returns c => (c, ctx)
  | Raised e => (mkCommand "user_input" (error_update ("Error processing Gmail query: " ++ e)), ctx)
  end.

(** The [try] body of [calendar_agent_node]. *)
Definition calendar_try (st : UnifiedState) : Raises Command * option jval :=
  let user_query := user_query st in
  let calendar_instruction := get_or (calendar_instruction st) (JStr user_query) in
  let existing_messages := messages st in
  match get_calendar_tools_raises with
  | Some e => (Raised e, None)
  | None =>
    let deps_events := get_or (events st) [] in
    match build_conversation_context calendar_instruction existing_messages with
    | Raised e => (Raised e, None)
    | Returns conversation_context =>
      (match calendar_run conversation_context deps_events with
       | RunRaised e => Raised e
       | RunDone response tool_calls deps_events' =>
           let end_conversation_called := existsb (String.eqb "end_conversation") tool_calls in
           let events_update := cache_update deps_events' in
           let agent_type := get_or (agent_type st) (JStr "calendar") in
           let execution_order := get_or (execution_order st) (JStr "gmail_first") in
           if is_str agent_type "both" && is_str execution_order "calendar_first" then
             Returns (mkCommand "gmail_agent"
               (specialist_update response (negb end_conversation_called) events_update set_events))
           else if end_conversation_called then
             Returns (mkCommand END (specialist_update response false events_update set_events))
           else
             Returns (mkCommand "user_input" (specialist_update response true events_update set_events))
       end, Some conversation_context)
    end
  end.

Definition calendar_agent_node (st : UnifiedState) : Command * option jval :=
  let '(r, ctx) := calendar_try st in
  match r with
  | Returns c => (c, ctx)
  | Raised e => (mkCommand "user_input" (error_update ("Error processing Calendar query: " ++ e)), ctx)
  end.

(** *** The compiled graph ([create_graph]) *)

Inductive node := UserInput | Orchestrator | GmailAgent | CalendarAgent.

Definition node_of_name (s : string) : option node :=
  if String.eqb s "user_input" then Some UserInput
  else if String.eqb s "orchestrator" then Some Orchestrator
  else if String.eqb s "gmail_agent" then Some GmailAgent
  else if String.eqb s "calendar_agent" then Some CalendarAgent
  else None.

(** The [path_map]s of the two [add_conditional_edges] calls. *)
Definition user_input_paths : list (string * string) :=
  [("continue", "orchestrator"); ("end", END)].
Definition orchestrator_paths : list (string * string) :=
  [("gmail_agent", "gmail_agent"); ("calendar_agent", "calendar_agent")].

(** [path_map[key]]; [None] is the [KeyError] LangGraph raises for a branch
    result missing from the map. *)
Fixpoint path_lookup (m : list (string * string)) (key : string) : option string :=
  match m with
  | [] => None
  | (k, d) :: rest => if String.eqb k key then Some d else path_lookup rest key
  end.

(** One node execution: the node, the context it gave to [agent.run] (if any). *)
Record Invocation := mkInvocation { inv_node : node; inv_context : option jval }.

(** Run node [n] on [st]: the invocation, the state after its update, and the
    next destination ([None]: the branch raised). *)
Definition step (n : node) (st : UnifiedState) : Invocation * UnifiedState * option string :=
  match n with
  | UserInput =>
      let st' := apply_update (user_input_node st) st in
      (mkInvocation UserInput None, st', path_lookup user_input_paths (should_continue st'))
  | Orchestrator =>
      let st' := apply_update (orchestrator_node st) st in
      (mkInvocation Orchestrator None, st', path_lookup orchestrator_paths (route_to_agent st'))
  | GmailAgent =>
      let '(cmd, ctx) := gmail_agent_node st in
      (mkInvocation GmailAgent ctx, apply_update (update cmd) st, Some (goto cmd))
  | CalendarAgent =>
      let '(cmd, ctx) := calendar_agent_node st in
      (mkInvocation CalendarAgent ctx, apply_update (update cmd) st, Some (goto cmd))
  end.

(** How a run of the graph stops. *)
Inductive Outcome :=
| Interrupted (st : UnifiedState)   (* before [user_input]: awaiting the next query *)
| Ended (st : UnifiedState)         (* reached [END] *)
| Failed (st : UnifiedState)        (* the graph raised; the failing step is not committed *)
| OutOfFuel (st : UnifiedState).

(** Execute from node [n] until [END], the [interrupt_before=["user_input"]]
    pause, or an error. *)
Fixpoint run_from (fuel : nat) (n : node) (st : UnifiedState) : list Invocation * Outcome :=
  match fuel with
  | O => ([], OutOfFuel st)
  | S fuel' =>
    let '(inv, st', dest) := step n st in
    match dest with
    | None => ([inv], Failed st)
    | Some d =>
      if String.eqb d END then ([inv], Ended st')
      else match node_of_name d with
           | Some UserInput => ([inv], Interrupted st')
           | Some n' => let '(tr, o) := run_from fuel' n' st' in (inv :: tr, o)
           | None => ([inv], Failed st)
           end
    end
  end.

(** One turn: resuming at the interrupted [user_input] node. *)
Definition run_turn (st : UnifiedState) : list Invocation * Outcome :=
  run_from 6 UserInput st.

(** A string value containing [needle]. *)
Definition contains_text (needle : string) (v : jval) : Prop :=
  exists pre post, v = JStr (pre ++ needle ++ post).

(** A run started at a specialist, given two steps of fuel: one or both
    specialists run, the run pauses or ends, each run appends one assistant
    message, and a cache is only ever replaced by a non-empty list. *)
Definition specialist_run_summary (n other : node) (st : UnifiedState)
  (r : list Invocation * Outcome) : Prop :=
  exists st' rs,
    (snd r = Interrupted st' \/ snd r = Ended st') /\
    (map inv_node (fst r) = [n] \/ map inv_node (fst r) = [n; other]) /\
    length rs = length (fst r) /\
    messages st' = (messages st ++ map (fun x => mkMsg "ai" x) rs)%list /\
    agent_response st' = last rs "" /\
    user_query st' = user_query st /\
    (emails st' = emails st \/ exists e l, emails st' = Some (e :: l)) /\
    (events st' = events st \/ exists e l, events st' = Some (e :: l)) /\
    (~ In GmailAgent (map inv_node (fst r)) -> emails st' = emails st) /\
    (~ In CalendarAgent (map inv_node (fst r)) -> events st' = events st).

(** *** Facts *)

(** **** Helper lemmas *)

Lemma str_app_assoc (a b c : string) : (a ++ b) ++ c = a ++ (b ++ c).
Proof. induction a as [|x a IH]; simpl; [reflexivity | now rewrite IH]. Qed.

Lemma str_app_nil_r (a : string) : a ++ "" = a.
Proof. induction a as [|x a IH]; simpl; [reflexivity | now rewrite IH]. Qed.

Lemma py_tail_length {A} (k : nat) (l : list A) :
  length (py_tail k l) = Nat.min k (length l).
Proof. unfold py_tail. rewrite length_skipn. lia. Qed.

Lemma py_tail_suffix {A} (k : nat) (l : list A) :
  exists older, l = (older ++ py_tail k l)%list.
Proof. exists (firstn (length l - k) l). unfold py_tail. now rewrite firstn_skipn. Qed.

Lemma py_tail_snoc {A} (k : nat) (l : list A) (x : A) :
  0 < k -> exists w, py_tail k (l ++ [x])%list = (w ++ [x])%list.
Proof.
  intros Hk. unfold py_tail. rewrite skipn_app, length_app. simpl.
  exists (skipn (length l + 1 - k) l).
  replace (length l + 1 - k - length l) with 0 by lia. reflexivity.
Qed.

Lemma concat_snoc (sep : string) (l : list string) (y : string) :
  exists pre, String.concat sep (l ++ [y])%list = pre ++ y.
Proof.
  induction l as [|x l [pre IH]].
  - exists "". reflexivity.
  - simpl. destruct (l ++ [y])%list eqn:E.
    + destruct l; discriminate.
    + exists (x ++ sep ++ pre). rewrite IH, !str_app_assoc. reflexivity.
Qed.

(** The context a specialist hands to [agent.run] is the one
    [build_conversation_context] makes from its instruction and the history. *)
Lemma gmail_node_context (st : UnifiedState) : snd (gmail_agent_node st) = snd (gmail_try st).
Proof. unfold gmail_agent_node. destruct (gmail_try st) as [[c|e] ctx]; reflexivity. Qed.

Lemma calendar_node_context (st : UnifiedState) :
  snd (calendar_agent_node st) = snd (calendar_try st).
Proof. unfold calendar_agent_node. destruct (calendar_try st) as [[c|e] ctx]; reflexivity. Qed.

Lemma gmail_context_built (st : UnifiedState) (ctx : jval) :
  snd (gmail_agent_node st) = Some ctx ->
  build_conversation_context (get_or (gmail_instruction st) (JStr (user_query st))) (messages st)
  = Returns ctx.
Proof.
  rewrite gmail_node_context. unfold gmail_try.
  destruct get_gmail_tools_raises; [simpl; discriminate|].
  destruct build_conversation_context as [c|e]; [|simpl; discriminate].
  simpl. intros H; inversion H; reflexivity.
Qed.

Lemma calendar_context_built (st : UnifiedState) (ctx : jval) :
  snd (calendar_agent_node st) = Some ctx ->
  build_conversation_context (get_or (calendar_instruction st) (JStr (user_query st))) (messages st)
  = Returns ctx.
Proof.
  rewrite calendar_node_context. unfold calendar_try.
  destruct get_calendar_tools_raises; [simpl; discriminate|].
  destruct build_conversation_context as [c|e]; [|simpl; discriminate].
  simpl. intros H; inversion H; reflexivity.
Qed.

Lemma build_context_window (instruction ctx : jval) (msgs : list Msg) :
  build_conversation_context instruction msgs = Returns ctx ->
  msgs = [] /\ ctx = instruction \/
  exists s, instruction = JStr s /\
    ctx = JStr ("Previous conversation:" ++ NL ++ String.concat NL (map format_msg (py_tail 5 msgs))
                ++ NL ++ NL ++ "Current question: " ++ s).
Proof.
  unfold build_conversation_context.
  destruct msgs as [|m msgs']; [intros H; inversion H; auto|].
  destruct (map format_msg (py_tail 5 (m :: msgs'))) eqn:Hparts.
  - apply map_eq_nil in Hparts.
    pose proof (py_tail_length 5 (m :: msgs')) as Hl. rewrite Hparts in Hl. simpl in Hl. lia.
  - destruct instruction; intros H; inversion H; subst. right. eexists; split; reflexivity.
Qed.

Lemma gmail_node_raised (st : UnifiedState) (e : string) :
  fst (gmail_try st) = Raised e ->
  gmail_agent_node st
  = (mkCommand "user_input" (error_update ("Error processing Gmail query: " ++ e)), snd (gmail_try st)).
Proof.
  unfold gmail_agent_node. destruct (gmail_try st) as [r c]. simpl. intros ->. reflexivity.
Qed.

Lemma calendar_node_raised (st : UnifiedState) (e : string) :
  fst (calendar_try st) = Raised e ->
  calendar_agent_node st
  = (mkCommand "user_input" (error_update ("Error processing Calendar query: " ++ e)), snd (calendar_try st)).
Proof.
  unfold calendar_agent_node. destruct (calendar_try st) as [r c]. simpl. intros ->. reflexivity.
Qed.

(** Folding the error update changes exactly three keys. *)
Lemma apply_error_update (m : string) (st : UnifiedState) :
  apply_update (error_update m) st =
  {| messages := (messages st ++ [mkMsg "ai" m])%list;
     user_query := user_query st;
     agent_response := m;
     continue_conversation := Some true;
     agent_type := agent_type st;
     execution_order := execution_order st;
     gmail_instruction := gmail_instruction st;
     calendar_instruction := calendar_instruction st;
     emails := emails st;
     events := events st |}.
Proof. reflexivity. Qed.

(** **** C10 *)

(** C10: after [user_input_node], [continue_conversation] is true, a message
    of role [user] (stored with type ["human"]) whose content is exactly the
    current [user_query] has been appended, and [should_continue] returns
    ["continue"], which the path map sends to the orchestrator. *)
Theorem user_input_always_continues (st : UnifiedState) :
  let st' := apply_update (user_input_node st) st in
  u_messages (user_input_node st) = [("user", user_query st)] /\
  continue_conversation st' = Some true /\
  messages st' = (messages st ++ [mkMsg "human" (user_query st)])%list /\
  user_query st' = user_query st /\
  should_continue st' = "continue" /\
  path_lookup user_input_paths (should_continue st') = Some "orchestrator".
Proof. repeat split. Qed.


(** **** C8 *)

(** C8: the context either specialist hands to [agent.run] is built from the
    window [messages[-5:]] only: the last [min 5 n] messages of the history
    (all of it when there are at most 5), rendered in order before the
    instruction; with an empty history it is the instruction alone. *)
Theorem specialist_context_last_five (st : UnifiedState) (ctx : jval) :
  (snd (gmail_agent_node st) = Some ctx \/ snd (calendar_agent_node st) = Some ctx) ->
  let window := py_tail 5 (messages st) in
  length window = Nat.min 5 (length (messages st)) /\
  (exists older, messages st = (older ++ window)%list) /\
  (messages st = [] \/
   exists s, ctx = JStr ("Previous conversation:" ++ NL ++ String.concat NL (map format_msg window)
                         ++ NL ++ NL ++ "Current question: " ++ s)).
Proof.
  intros Hctx window. split; [apply py_tail_length|]. split; [apply py_tail_suffix|].
  destruct Hctx as [H|H];
    [apply gmail_context_built in H | apply calendar_context_built in H];
    apply build_context_window in H;
    destruct H as [[Hm _] | [s [_ Hc]]]; auto; right; exists s; exact Hc.
Qed.

(** **** C9 *)

(** C9: when the [try] body of a specialist node raises, the node's update is
    the error update: [agent_response], one assistant message and
    [continue_conversation]; every other key, [emails] and [events] included,
    keeps its value. *)
Theorem specialist_error_update_frame (st : UnifiedState) :
  (forall e, fst (gmail_try st) = Raised e ->
   let m := "Error processing Gmail query: " ++ e in
   update (fst (gmail_agent_node st)) = error_update m /\
   apply_update (update (fst (gmail_agent_node st))) st =
   {| messages := (messages st ++ [mkMsg "ai" m])%list; user_query := user_query st;
      agent_response := m; continue_conversation := Some true;
      agent_type := agent_type st; execution_order := execution_order st;
      gmail_instruction := gmail_instruction st; calendar_instruction := calendar_instruction st;
      emails := emails st; events := events st |}) /\
  (forall e, fst (calendar_try st) = Raised e ->
   let m := "Error processing Calendar query: " ++ e in
   update (fst (calendar_agent_node st)) = error_update m /\
   apply_update (update (fst (calendar_agent_node st))) st =
   {| messages := (messages st ++ [mkMsg "ai" m])%list; user_query := user_query st;
      agent_response := m; continue_conversation := Some true;
      agent_type := agent_type st; execution_order := execution_order st;
      gmail_instruction := gmail_instruction st; calendar_instruction := calendar_instruction st;
      emails := emails st; events := events st |}).
Proof.
  split; intros e He m.
  - rewrite (gmail_node_raised st e He). split; reflexivity.
  - rewrite (calendar_node_raised st e He). split; reflexivity.
Qed.

(** **** C6 *)

(** C6: when the [try] body of a specialist node raises, the graph goes back
    to [user_input] (the run pauses awaiting input, it neither ends nor
    fails), with [continue_conversation = true] and a non-empty error text
    recorded both as [agent_response] and as an appended assistant message. *)
Theorem specialist_exception_returns_to_input (st : UnifiedState) (fuel : nat) :
  (forall e, fst (gmail_try st) = Raised e ->
   exists st',
     run_from (S fuel) GmailAgent st
     = ([mkInvocation GmailAgent (snd (gmail_try st))], Interrupted st') /\
     continue_conversation st' = Some true /\
     agent_response st' <> "" /\
     messages st' = (messages st ++ [mkMsg "ai" (agent_response st')])%list) /\
  (forall e, fst (calendar_try st) = Raised e ->
   exists st',
     run_from (S fuel) CalendarAgent st
     = ([mkInvocation CalendarAgent (snd (calendar_try st))], Interrupted st') /\
     continue_conversation st' = Some true /\
     agent_response st' <> "" /\
     messages st' = (messages st ++ [mkMsg "ai" (agent_response st')])%list).
Proof.
  split; intros e He.
  - eexists. cbn [run_from step]. rewrite (gmail_node_raised st e He).
    split; [reflexivity|]. simpl. repeat split; discriminate.
  - eexists. cbn [run_from step]. rewrite (calendar_node_raised st e He).
    split; [reflexivity|]. simpl. repeat split; discriminate.
Qed.


(** **** Running the graph *)

Lemma run_from_continue (f : nat) (n n' : node) (st st' : UnifiedState) (inv : Invocation) (d : string) :
  step n st = (inv, st', Some d) -> String.eqb d END = false -> node_of_name d = Some n' ->
  n' <> UserInput ->
  fst (run_from (S f) n st) = inv :: fst (run_from f n' st').
Proof.
  intros Hs He Hn Hu. simpl. rewrite Hs, He, Hn.
  destruct n'; try congruence; destruct (run_from f _ st'); reflexivity.
Qed.

Lemma run_from_pause (f : nat) (n : node) (st st' : UnifiedState) (inv : Invocation) :
  step n st = (inv, st', Some "user_input") ->
  run_from (S f) n st = ([inv], Interrupted st').
Proof. intros Hs. simpl. rewrite Hs. reflexivity. Qed.

Lemma run_from_end (f : nat) (n : node) (st st' : UnifiedState) (inv : Invocation) :
  step n st = (inv, st', Some END) ->
  run_from (S f) n st = ([inv], Ended st').
Proof. intros Hs. simpl. rewrite Hs. reflexivity. Qed.

Lemma step_inv_node (n : node) (st : UnifiedState) : inv_node (fst (fst (step n st))) = n.
Proof.
  destruct n; simpl; try reflexivity;
    [destruct (gmail_agent_node st) | destruct (calendar_agent_node st)]; reflexivity.
Qed.

Lemma run_from_head (f : nat) (n : node) (st : UnifiedState) :
  exists inv rest, fst (run_from (S f) n st) = inv :: rest /\ inv_node inv = n.
Proof.
  pose proof (step_inv_node n st) as Hn. simpl.
  destruct (step n st) as [[inv st'] dest]. simpl in Hn.
  destruct dest as [d|]; [|exists inv, []; auto].
  destruct (String.eqb d END); [exists inv, []; auto|].
  destruct (node_of_name d) as [[]|]; try (exists inv, []; auto; fail);
    match goal with |- context [run_from f ?m st'] => destruct (run_from f m st') as [tr o] end;
    exists inv, tr; auto.
Qed.

Lemma existsb_end_conversation (calls : list string) :
  In "end_conversation" calls -> existsb (String.eqb "end_conversation") calls = true.
Proof.
  intros H. apply existsb_exists. exists "end_conversation". split; [exact H | apply String.eqb_refl].
Qed.

(** A completed Gmail run in a [calendar_first] task goes back to input or ends. *)
Lemma gmail_goto_after_calendar_first (st : UnifiedState) :
  execution_order st = Some (JStr "calendar_first") ->
  goto (fst (gmail_agent_node st)) = "user_input" \/ goto (fst (gmail_agent_node st)) = END.
Proof.
  intros Heo. unfold gmail_agent_node, gmail_try. rewrite Heo.
  destruct get_gmail_tools_raises; [simpl; auto|].
  destruct build_conversation_context; [|simpl; auto].
  destruct gmail_run as [e|r calls cache]; [simpl; auto|].
  destruct (is_str _ "both"); simpl;
    destruct (existsb _ calls); simpl; auto.
Qed.

(** The last message of the history appears verbatim in the built context. *)
Lemma context_contains_last (instruction ctx : jval) (msgs : list Msg) (x : Msg) :
  build_conversation_context instruction (msgs ++ [x])%list = Returns ctx ->
  contains_text (msg_content x) ctx.
Proof.
  intros H. apply build_context_window in H.
  destruct H as [[Hnil _] | [s [_ Hc]]]; [destruct msgs; discriminate|].
  destruct (py_tail_snoc 5 msgs x) as [w Hw]; [lia|].
  rewrite Hw, map_app in Hc. simpl map in Hc.
  destruct (concat_snoc NL (map format_msg w) (format_msg x)) as [pre Hp].
  rewrite Hp in Hc. subst ctx. unfold format_msg.
  destruct (String.eqb (msg_content x) "") eqn:E.
  - apply String.eqb_eq in E. rewrite E.
    eexists "", _. simpl. reflexivity.
  - exists ("Previous conversation:" ++ NL ++ pre
            ++ (if String.eqb (msg_type x) "" then "assistant" else msg_type x) ++ ": "),
           (NL ++ NL ++ "Current question: " ++ s).
    rewrite !str_app_assoc. reflexivity.
Qed.

(** **** C1 *)

(** C1 (as the code does it): when the specialist that runs first in a
    [both] task calls [end_conversation], its update sets
    [continue_conversation = false] but still routes to the other specialist,
    which is invoked next. *)
Theorem both_end_conversation_still_runs_second (st : UnifiedState) (fuel : nat) :
  agent_type st = Some (JStr "both") ->
  (forall ctx resp calls cache,
     execution_order st = Some (JStr "gmail_first") ->
     get_gmail_tools_raises = None ->
     build_conversation_context (get_or (gmail_instruction st) (JStr (user_query st))) (messages st)
       = Returns ctx ->
     gmail_run ctx (get_or (emails st) []) = RunDone resp calls cache ->
     In "end_conversation" calls ->
     exists st' rest,
       step GmailAgent st = (mkInvocation GmailAgent (Some ctx), st', Some "calendar_agent") /\
       continue_conversation st' = Some false /\
       map inv_node (fst (run_from (S (S fuel)) GmailAgent st)) = GmailAgent :: CalendarAgent :: rest) /\
  (forall ctx resp calls cache,
     execution_order st = Some (JStr "calendar_first") ->
     get_calendar_tools_raises = None ->
     build_conversation_context (get_or (calendar_instruction st) (JStr (user_query st))) (messages st)
       = Returns ctx ->
     calendar_run ctx (get_or (events st) []) = RunDone resp calls cache ->
     In "end_conversation" calls ->
     exists st' rest,
       step CalendarAgent st = (mkInvocation CalendarAgent (Some ctx), st', Some "gmail_agent") /\
       continue_conversation st' = Some false /\
       map inv_node (fst (run_from (S (S fuel)) CalendarAgent st)) = CalendarAgent :: GmailAgent :: rest).
Proof.
  intros Hat. split; intros ctx resp calls cache Heo Htools Hctx Hrun Hin.
  - assert (Hs : step GmailAgent st =
              (mkInvocation GmailAgent (Some ctx),
               apply_update (specialist_update resp false (cache_update cache) set_emails) st,
               Some "calendar_agent")).
    { cbn [step]. unfold gmail_agent_node, gmail_try.
      rewrite Htools, Hctx, Hrun, Hat, Heo, (existsb_end_conversation _ Hin). reflexivity. }
    destruct (run_from_head fuel CalendarAgent
                (apply_update (specialist_update resp false (cache_update cache) set_emails) st))
      as [inv [rest [Hr Hn]]].
    eexists _, (map inv_node rest). split; [exact Hs|]. split; [reflexivity|].
    rewrite (run_from_continue _ _ CalendarAgent _ _ _ _ Hs); [|reflexivity|reflexivity|discriminate].
    rewrite Hr. simpl. rewrite Hn. reflexivity.
  - assert (Hs : step CalendarAgent st =
              (mkInvocation CalendarAgent (Some ctx),
               apply_update (specialist_update resp false (cache_update cache) set_events) st,
               Some "gmail_agent")).
    { cbn [step]. unfold calendar_agent_node, calendar_try.
      rewrite Htools, Hctx, Hrun, Hat, Heo, (existsb_end_conversation _ Hin). reflexivity. }
    destruct (run_from_head fuel GmailAgent
                (apply_update (specialist_update resp false (cache_update cache) set_events) st))
      as [inv [rest [Hr Hn]]].
    eexists _, (map inv_node rest). split; [exact Hs|]. split; [reflexivity|].
    rewrite (run_from_continue _ _ GmailAgent _ _ _ _ Hs); [|reflexivity|reflexivity|discriminate].
    rewrite Hr. simpl. rewrite Hn. reflexivity.
Qed.


Lemma gmail_raised_pauses (f : nat) (st : UnifiedState) (e : string) :
  fst (gmail_try st) = Raised e ->
  run_from (S f) GmailAgent st
  = ([mkInvocation GmailAgent (snd (gmail_try st))],
     Interrupted (apply_update (error_update ("Error processing Gmail query: " ++ e)) st)).
Proof.
  intros He. apply run_from_pause. cbn [step]. rewrite (gmail_node_raised st e He). reflexivity.
Qed.

Lemma calendar_raised_pauses (f : nat) (st : UnifiedState) (e : string) :
  fst (calendar_try st) = Raised e ->
  run_from (S f) CalendarAgent st
  = ([mkInvocation CalendarAgent (snd (calendar_try st))],
     Interrupted (apply_update (error_update ("Error processing Calendar query: " ++ e)) st)).
Proof.
  intros He. apply run_from_pause. cbn [step]. rewrite (calendar_node_raised st e He). reflexivity.
Qed.

(** After a completed specialist step, a Gmail step in a [calendar_first]
    task is the last one of the run. *)
Lemma gmail_last_after_calendar_first (f : nat) (st : UnifiedState) :
  execution_order st = Some (JStr "calendar_first") ->
  fst (run_from (S f) GmailAgent st) = [mkInvocation GmailAgent (snd (gmail_agent_node st))].
Proof.
  intros Heo. destruct (gmail_goto_after_calendar_first st Heo) as [Hg|Hg];
    destruct (gmail_agent_node st) as [cmd gctx] eqn:Hn; simpl in Hg.
  - rewrite (run_from_pause f GmailAgent st (apply_update (update cmd) st) (mkInvocation GmailAgent gctx)); [reflexivity|].
    cbn [step]. rewrite Hn, Hg. reflexivity.
  - rewrite (run_from_end f GmailAgent st (apply_update (update cmd) st) (mkInvocation GmailAgent gctx)); [reflexivity|].
    cbn [step]. rewrite Hn, Hg. reflexivity.
Qed.

(** **** C3 *)

(** C3: for a [both] task with [execution_order = calendar_first], the router
    picks the Calendar specialist; the run from there starts with the
    Calendar specialist, Gmail is invoked right after it once the Calendar run
    completes, and any context the Gmail specialist receives contains the
    Calendar specialist's response verbatim. *)
Theorem both_calendar_first_order (st : UnifiedState) (fuel : nat) :
  agent_type st = Some (JStr "both") ->
  execution_order st = Some (JStr "calendar_first") ->
  path_lookup orchestrator_paths (route_to_agent st) = Some "calendar_agent" /\
  match fst (run_from (S fuel) CalendarAgent st) with
  | first :: rest =>
      inv_node first = CalendarAgent /\
      (forall cctx resp calls cache,
         inv_context first = Some cctx ->
         calendar_run cctx (get_or (events st) []) = RunDone resp calls cache ->
         0 < fuel ->
         exists g, rest = [g] /\ inv_node g = GmailAgent) /\
      (forall g, In g rest -> inv_node g = GmailAgent ->
         exists cctx resp calls cache,
           inv_context first = Some cctx /\
           calendar_run cctx (get_or (events st) []) = RunDone resp calls cache /\
           forall ctx, inv_context g = Some ctx -> contains_text resp ctx)
  | [] => False
  end.
Proof.
  intros Hat Heo. split.
  { unfold route_to_agent. rewrite Hat, Heo. reflexivity. }
  assert (Hraised : forall e, fst (calendar_try st) = Raised e ->
    match fst (run_from (S fuel) CalendarAgent st) with
    | first :: rest =>
        inv_node first = CalendarAgent /\
        (forall cctx resp calls cache,
           inv_context first = Some cctx ->
           calendar_run cctx (get_or (events st) []) = RunDone resp calls cache ->
           0 < fuel -> exists g, rest = [g] /\ inv_node g = GmailAgent) /\
        (forall g, In g rest -> inv_node g = GmailAgent ->
           exists cctx resp calls cache,
             inv_context first = Some cctx /\
             calendar_run cctx (get_or (events st) []) = RunDone resp calls cache /\
             forall ctx, inv_context g = Some ctx -> contains_text resp ctx)
    | [] => False
    end).
  { intros e He. rewrite (calendar_raised_pauses fuel st e He). simpl.
    split; [reflexivity|]. split; [|intros g []].
    intros cctx resp calls cache Hc Hr _. exfalso. revert He Hc.
    unfold calendar_try. destruct get_calendar_tools_raises.
    { simpl. intros _ Hc. discriminate Hc. }
    destruct build_conversation_context.
    2: { simpl. intros _ Hc. discriminate Hc. }
    simpl. intros He Hc. inversion Hc; subst. rewrite Hr in He. revert He.
    repeat match goal with |- context [if ?b then _ else _] => destruct b end; discriminate. }
  destruct (calendar_try st) as [r cctx0] eqn:Ht.
  destruct r as [cmd|e]; [|apply (Hraised e); reflexivity].
  clear Hraised.
  (* the Calendar run completed *)
  revert Ht. unfold calendar_try.
  destruct get_calendar_tools_raises eqn:Htools; [discriminate|].
  destruct (build_conversation_context _ (messages st)) as [c|e] eqn:Hb; [|discriminate].
  destruct (calendar_run c (get_or (events st) [])) as [e|resp calls cache] eqn:Hr; [discriminate|].
  intros Ht. rewrite Hat, Heo in Ht. simpl in Ht. inversion Ht; subst cmd cctx0. clear Ht.
  set (st1 := apply_update (specialist_update resp (negb (existsb (String.eqb "end_conversation") calls))
                              (cache_update cache) set_events) st).
  assert (Hs : step CalendarAgent st = (mkInvocation CalendarAgent (Some c), st1, Some "gmail_agent")).
  { cbn [step]. unfold calendar_agent_node, calendar_try.
    rewrite Htools, Hb, Hr, Hat, Heo. reflexivity. }
  rewrite (run_from_continue _ _ GmailAgent _ _ _ _ Hs); [|reflexivity|reflexivity|discriminate].
  assert (Heo1 : execution_order st1 = Some (JStr "calendar_first")) by (simpl; exact Heo).
  assert (Hm1 : messages st1 = (messages st ++ [mkMsg "ai" resp])%list) by reflexivity.
  split; [reflexivity|]. split.
  - intros cctx resp' calls' cache' _ _ Hf. destruct fuel as [|f]; [lia|].
    rewrite (gmail_last_after_calendar_first f st1 Heo1). eauto.
  - intros g Hin Hg. exists c, resp, calls, cache. split; [reflexivity|]. split; [exact Hr|].
    destruct fuel as [|f]; [destruct Hin|].
    rewrite (gmail_last_after_calendar_first f st1 Heo1) in Hin.
    destruct Hin as [<-|[]]. simpl. intros ctx Hctx.
    apply gmail_context_built in Hctx. rewrite Hm1 in Hctx.
    exact (context_contains_last _ _ _ _ Hctx).
Qed.


(** **** Orchestrator *)

(** With [agent_type = terminate] the orchestrator's update sets
    [continue_conversation = false], but [route_to_agent] then returns the
    string ["END"], which is not a key of the orchestrator's path map: the
    branch raises and the run fails without invoking a specialist. *)
Lemma terminate_branch_fails (st : UnifiedState) (fuel : nat) :
  rd_agent_type (classify (user_query st) (orchestrator_run (user_query st))) = "terminate" ->
  u_continue (orchestrator_node st) = Some false /\
  route_to_agent (apply_update (orchestrator_node st) st) = "END" /\
  path_lookup orchestrator_paths "END" = None /\
  run_from (S fuel) Orchestrator st = ([mkInvocation Orchestrator None], Failed st).
Proof.
  intros Ht.
  assert (Hc : u_continue (orchestrator_node st) = Some false).
  { unfold orchestrator_node. cbn [u_continue]. rewrite Ht. reflexivity. }
  assert (Hr : route_to_agent (apply_update (orchestrator_node st) st) = "END").
  { unfold route_to_agent. cbn [agent_type apply_update]. unfold orchestrator_node.
    cbn [u_agent_type]. rewrite Ht. reflexivity. }
  repeat split; [exact Hc | exact Hr |].
  simpl. rewrite Hr. reflexivity.
Qed.

(** **** C2 *)

(** C2 (as the code does it): classification never raises.  It yields the
    default decision when [orchestrator.run] raises, when the output lacks a
    ['{'] or a ['}'], when the span from the first ['{'] to the last ['}']
    is not valid JSON or is not an object, and when [agent_type] is not a
    string.  When the span decodes to an object, each of the four fields is
    the object's value or, if that key is absent, its own default
    ([gmail], [gmail_first], the query, the query). *)
Theorem classify_fallbacks (user_query : string) :
  classify user_query OrchRaised = default_decision user_query /\
  (forall text, str_contains "{" text && str_contains "}" text = false ->
     classify user_query (OrchOutput text) = default_decision user_query) /\
  (forall text, json_loads (json_span text) = None ->
     classify user_query (OrchOutput text) = default_decision user_query) /\
  (forall text v, json_loads (json_span text) = Some v -> (forall parsed, v <> JObj parsed) ->
     classify user_query (OrchOutput text) = default_decision user_query) /\
  (forall text parsed,
     str_contains "{" text && str_contains "}" text = true ->
     json_loads (json_span text) = Some (JObj parsed) ->
     classify user_query (OrchOutput text) =
     match dict_get parsed "agent_type" (JStr "gmail") with
     | JStr s => mkDecision s (dict_get parsed "execution_order" (JStr "gmail_first"))
                   (dict_get parsed "gmail_instruction" (JStr user_query))
                   (dict_get parsed "calendar_instruction" (JStr user_query))
     | _ => default_decision user_query
     end).
Proof.
  split; [reflexivity|]. split; [|split; [|split]].
  - intros text H. unfold classify, parse_routing. rewrite H. reflexivity.
  - intros text H. unfold classify, parse_routing. rewrite H.
    destruct (_ && _); reflexivity.
  - intros text v H Hv. unfold classify, parse_routing. rewrite H.
    destruct (_ && _); [|reflexivity].
    destruct v; try reflexivity. exfalso. exact (Hv pairs eq_refl).
  - intros text parsed Hb H. unfold classify, parse_routing. rewrite Hb, H.
    destruct (dict_get parsed "agent_type" _); reflexivity.
Qed.

(** **** C7 *)

(** C7 (as the code does it): [agent_type] is not checked against a fixed set
    of values; it is whatever string the orchestrator's JSON holds under
    ["agent_type"].  The router sends [terminate] to ["END"], [calendar] to the
    Calendar specialist, [both] to the specialist [execution_order] names
    first, and every value other than these and [orchestrator] to the Gmail
    specialist. *)
Theorem agent_type_unchecked_routing :
  (forall user_query text parsed s,
     str_contains "{" text && str_contains "}" text = true ->
     json_loads (json_span text) = Some (JObj parsed) ->
     dict_get parsed "agent_type" (JStr "gmail") = JStr s ->
     rd_agent_type (classify user_query (OrchOutput text)) = s) /\
  (forall st, agent_type st = Some (JStr "terminate") -> route_to_agent st = "END") /\
  (forall st, agent_type st = Some (JStr "calendar") -> route_to_agent st = "calendar_agent") /\
  (forall st, agent_type st = Some (JStr "both") ->
     route_to_agent st =
     if is_str (get_or (execution_order st) (JStr "gmail_first")) "calendar_first"
     then "calendar_agent" else "gmail_agent") /\
  (forall st s, agent_type st = Some (JStr s) ->
     ~ In s ["terminate"; "calendar"; "both"; "orchestrator"] ->
     route_to_agent st = "gmail_agent").
Proof.
  split; [|split; [|split; [|split]]].
  - intros uq text parsed s Hb H Hs. unfold classify, parse_routing.
    rewrite Hb, H, Hs. reflexivity.
  - intros st H. unfold route_to_agent. rewrite H. reflexivity.
  - intros st H. unfold route_to_agent. rewrite H. reflexivity.
  - intros st H. unfold route_to_agent. rewrite H. reflexivity.
  - intros st s H Hn. unfold route_to_agent. rewrite H. simpl.
    destruct (String.eqb_spec s "terminate"); [subst; simpl in Hn; tauto|].
    destruct (String.eqb_spec s "calendar"); [subst; simpl in Hn; tauto|].
    destruct (String.eqb_spec s "both"); [subst; simpl in Hn; tauto|].
    reflexivity.
Qed.


(** **** Further properties of the graph *)

(** What a Gmail node execution can return: one assistant message, no change
    to the query or the routing fields, the events cache untouched, the emails
    cache only replaced by a non-empty list, and one of three destinations. *)
Lemma gmail_cmd_facts (st : UnifiedState) :
  let u := update (fst (gmail_agent_node st)) in
  let g := goto (fst (gmail_agent_node st)) in
  (exists r, u_agent_response u = Some r /\ u_messages u = [("assistant", r)]) /\
  u_user_query u = None /\ u_agent_type u = None /\ u_execution_order u = None /\
  u_gmail_instruction u = None /\ u_calendar_instruction u = None /\
  u_events u = None /\ (u_emails u = None \/ exists e l, u_emails u = Some (e :: l)) /\
  ((g = "user_input" /\ u_continue u = Some true) \/
   (g = END /\ u_continue u = Some false) \/
   (g = "calendar_agent" /\
    is_str (get_or (execution_order st) (JStr "gmail_first")) "gmail_first" = true)).
Proof.
  unfold gmail_agent_node, gmail_try.
  destruct get_gmail_tools_raises as [e|]; [cbn; repeat split; eauto 10|].
  destruct build_conversation_context as [ctx|e]; [|cbn; repeat split; eauto 10].
  destruct gmail_run as [e|r calls cache]; [cbn; repeat split; eauto 10|].
  assert (Hc : cache_update cache = None \/ exists e l, cache_update cache = Some (e :: l)).
  { destruct cache; [left; reflexivity | right; do 2 eexists; reflexivity]. }
  destruct (is_str _ "both" && is_str _ "gmail_first") eqn:Hb.
  - apply andb_true_iff in Hb. destruct Hb as [_ Hb].
    cbn. repeat split; eauto 10.
  - destruct (existsb _ calls); cbn; repeat split; eauto 10.
Qed.

Lemma calendar_cmd_facts (st : UnifiedState) :
  let u := update (fst (calendar_agent_node st)) in
  let g := goto (fst (calendar_agent_node st)) in
  (exists r, u_agent_response u = Some r /\ u_messages u = [("assistant", r)]) /\
  u_user_query u = None /\ u_agent_type u = None /\ u_execution_order u = None /\
  u_gmail_instruction u = None /\ u_calendar_instruction u = None /\
  u_emails u = None /\ (u_events u = None \/ exists e l, u_events u = Some (e :: l)) /\
  ((g = "user_input" /\ u_continue u = Some true) \/
   (g = END /\ u_continue u = Some false) \/
   (g = "gmail_agent" /\
    is_str (get_or (execution_order st) (JStr "gmail_first")) "calendar_first" = true)).
Proof.
  unfold calendar_agent_node, calendar_try.
  destruct get_calendar_tools_raises as [e|]; [cbn; repeat split; eauto 10|].
  destruct build_conversation_context as [ctx|e]; [|cbn; repeat split; eauto 10].
  destruct calendar_run as [e|r calls cache]; [cbn; repeat split; eauto 10|].
  assert (Hc : cache_update cache = None \/ exists e l, cache_update cache = Some (e :: l)).
  { destruct cache; [left; reflexivity | right; do 2 eexists; reflexivity]. }
  destruct (is_str _ "both" && is_str _ "calendar_first") eqn:Hb.
  - apply andb_true_iff in Hb. destruct Hb as [_ Hb].
    cbn. repeat split; eauto 10.
  - destruct (existsb _ calls); cbn; repeat split; eauto 10.
Qed.

Lemma step_gmail_eq (st : UnifiedState) :
  step GmailAgent st =
  (mkInvocation GmailAgent (snd (gmail_agent_node st)),
   apply_update (update (fst (gmail_agent_node st))) st,
   Some (goto (fst (gmail_agent_node st)))).
Proof. cbn [step]. destruct (gmail_agent_node st); reflexivity. Qed.

Lemma step_calendar_eq (st : UnifiedState) :
  step CalendarAgent st =
  (mkInvocation CalendarAgent (snd (calendar_agent_node st)),
   apply_update (update (fst (calendar_agent_node st))) st,
   Some (goto (fst (calendar_agent_node st)))).
Proof. cbn [step]. destruct (calendar_agent_node st); reflexivity. Qed.

Lemma run_from_next (f : nat) (n n' : node) (st st' : UnifiedState) (inv : Invocation) (d : string) :
  step n st = (inv, st', Some d) -> String.eqb d END = false -> node_of_name d = Some n' ->
  n' <> UserInput ->
  run_from (S f) n st = (inv :: fst (run_from f n' st'), snd (run_from f n' st')).
Proof.
  intros Hs He Hn Hu. cbn [run_from]. rewrite Hs, He, Hn.
  destruct n'; try congruence; destruct (run_from f _ st'); reflexivity.
Qed.

(** The state after a specialist's update, when it leaves the query and the
    routing fields alone. *)
Lemma apply_specialist_update (u : Update) (st : UnifiedState) (r : string) :
  u_agent_response u = Some r -> u_messages u = [("assistant", r)] ->
  u_user_query u = None -> u_agent_type u = None -> u_execution_order u = None ->
  u_gmail_instruction u = None -> u_calendar_instruction u = None ->
  let st' := apply_update u st in
  messages st' = (messages st ++ [mkMsg "ai" r])%list /\ agent_response st' = r /\
  user_query st' = user_query st /\ agent_type st' = agent_type st /\
  execution_order st' = execution_order st /\
  gmail_instruction st' = gmail_instruction st /\
  calendar_instruction st' = calendar_instruction st /\
  continue_conversation st' = match u_continue u with Some b => Some b | None => continue_conversation st end /\
  emails st' = match u_emails u with Some l => Some l | None => emails st end /\
  events st' = match u_events u with Some l => Some l | None => events st end.
Proof.
  intros Hr Hm Hq Ha He Hg Hc. unfold apply_update. cbn.
  rewrite Hr, Hm, Hq, Ha, He, Hg, Hc. cbn. repeat split.
Qed.

Lemma is_str_gmail_calendar_first (v : jval) :
  is_str v "gmail_first" = true -> is_str v "calendar_first" = true -> False.
Proof.
  destruct v; try discriminate. cbn. intros H1 H2.
  apply String.eqb_eq in H1, H2. congruence.
Qed.

Lemma gmail_run_summary (f : nat) (st : UnifiedState) :
  specialist_run_summary GmailAgent CalendarAgent st (run_from (S (S f)) GmailAgent st).
Proof.
  pose proof (gmail_cmd_facts st) as H. cbv zeta in H.
  destruct H as [[r [Hr Hm]] [Hq [Ha [He [Hg [Hc [Hev [Hem Hgo]]]]]]]].
  pose proof (apply_specialist_update _ st r Hr Hm Hq Ha He Hg Hc) as A. cbv zeta in A.
  set (st1 := apply_update (update (fst (gmail_agent_node st))) st) in *.
  destruct A as [Am [Ar [Aq [Aa [Ae [Agi [Aci [Acont [Aem Aev]]]]]]]]].
  rewrite Hev in Aev.
  assert (Hem1 : emails st1 = emails st \/ exists e l, emails st1 = Some (e :: l)).
  { destruct Hem as [Hn|[e [l Hs]]]; [rewrite Hn in Aem | rewrite Hs in Aem]; eauto. }
  destruct Hgo as [[Hgoto _]|[[Hgoto _]|[Hgoto Hfirst]]].
  - assert (R : run_from (S (S f)) GmailAgent st =
                ([mkInvocation GmailAgent (snd (gmail_agent_node st))], Interrupted st1)).
    { apply run_from_pause. rewrite step_gmail_eq, Hgoto. reflexivity. }
    rewrite R. exists st1, [r]. cbn [fst snd map length last In].
    repeat split; auto; intros Hn; exfalso; auto.
  - assert (R : run_from (S (S f)) GmailAgent st =
                ([mkInvocation GmailAgent (snd (gmail_agent_node st))], Ended st1)).
    { apply run_from_end. rewrite step_gmail_eq, Hgoto. reflexivity. }
    rewrite R. exists st1, [r]. cbn [fst snd map length last In].
    repeat split; auto; intros Hn; exfalso; auto.
  - assert (R : run_from (S (S f)) GmailAgent st =
                (mkInvocation GmailAgent (snd (gmail_agent_node st)) :: fst (run_from (S f) CalendarAgent st1),
                 snd (run_from (S f) CalendarAgent st1))).
    { eapply run_from_next; [rewrite step_gmail_eq, Hgoto; reflexivity
                            | reflexivity | reflexivity | discriminate]. }
    rewrite R. clear R.
    pose proof (calendar_cmd_facts st1) as H. cbv zeta in H.
    destruct H as [[r2 [Hr2 Hm2]] [Hq2 [Ha2 [He2 [Hg2 [Hc2 [Hem2 [Hev2 Hgo2]]]]]]]].
    pose proof (apply_specialist_update _ st1 r2 Hr2 Hm2 Hq2 Ha2 He2 Hg2 Hc2) as B. cbv zeta in B.
    set (st2 := apply_update (update (fst (calendar_agent_node st1))) st1) in *.
    destruct B as [Bm [Br [Bq [Ba [Be [Bgi [Bci [Bcont [Bem Bev]]]]]]]]].
    rewrite Hem2 in Bem.
    assert (Hev2' : events st2 = events st \/ exists e l, events st2 = Some (e :: l)).
    { destruct Hev2 as [Hn|[e [l Hs]]]; [rewrite Hn in Bev | rewrite Hs in Bev]; eauto.
      left. rewrite Bev. exact Aev. }
    assert (Hem2' : emails st2 = emails st \/ exists e l, emails st2 = Some (e :: l)).
    { rewrite Bem. exact Hem1. }
    assert (Hmsg : messages st2 = (messages st ++ map (fun x => mkMsg "ai" x) [r; r2])%list).
    { rewrite Bm, Am. rewrite <- app_assoc. reflexivity. }
    destruct Hgo2 as [[Hgoto2 _]|[[Hgoto2 _]|[_ Hfirst2]]].
    + assert (R : run_from (S f) CalendarAgent st1 =
                  ([mkInvocation CalendarAgent (snd (calendar_agent_node st1))], Interrupted st2)).
      { apply run_from_pause. rewrite step_calendar_eq, Hgoto2. reflexivity. }
      rewrite R. exists st2, [r; r2]. cbn [fst snd map length last In].
      repeat split; auto; try congruence; intros Hn; exfalso; auto.
    + assert (R : run_from (S f) CalendarAgent st1 =
                  ([mkInvocation CalendarAgent (snd (calendar_agent_node st1))], Ended st2)).
      { apply run_from_end. rewrite step_calendar_eq, Hgoto2. reflexivity. }
      rewrite R. exists st2, [r; r2]. cbn [fst snd map length last In].
      repeat split; auto; try congruence; intros Hn; exfalso; auto.
    + rewrite Ae in Hfirst2. exfalso. exact (is_str_gmail_calendar_first _ Hfirst Hfirst2).
Qed.

Lemma calendar_run_summary (f : nat) (st : UnifiedState) :
  specialist_run_summary CalendarAgent GmailAgent st (run_from (S (S f)) CalendarAgent st).
Proof.
  pose proof (calendar_cmd_facts st) as H. cbv zeta in H.
  destruct H as [[r [Hr Hm]] [Hq [Ha [He [Hg [Hc [Hem [Hev Hgo]]]]]]]].
  pose proof (apply_specialist_update _ st r Hr Hm Hq Ha He Hg Hc) as A. cbv zeta in A.
  set (st1 := apply_update (update (fst (calendar_agent_node st))) st) in *.
  destruct A as [Am [Ar [Aq [Aa [Ae [Agi [Aci [Acont [Aem Aev]]]]]]]]].
  rewrite Hem in Aem.
  assert (Hev1 : events st1 = events st \/ exists e l, events st1 = Some (e :: l)).
  { destruct Hev as [Hn|[e [l Hs]]]; [rewrite Hn in Aev | rewrite Hs in Aev]; eauto. }
  destruct Hgo as [[Hgoto _]|[[Hgoto _]|[Hgoto Hfirst]]].
  - assert (R : run_from (S (S f)) CalendarAgent st =
                ([mkInvocation CalendarAgent (snd (calendar_agent_node st))], Interrupted st1)).
    { apply run_from_pause. rewrite step_calendar_eq, Hgoto. reflexivity. }
    rewrite R. exists st1, [r]. cbn [fst snd map length last In].
    repeat split; auto; intros Hn; exfalso; auto.
  - assert (R : run_from (S (S f)) CalendarAgent st =
                ([mkInvocation CalendarAgent (snd (calendar_agent_node st))], Ended st1)).
    { apply run_from_end. rewrite step_calendar_eq, Hgoto. reflexivity. }
    rewrite R. exists st1, [r]. cbn [fst snd map length last In].
    repeat split; auto; intros Hn; exfalso; auto.
  - assert (R : run_from (S (S f)) CalendarAgent st =
                (mkInvocation CalendarAgent (snd (calendar_agent_node st)) :: fst (run_from (S f) GmailAgent st1),
                 snd (run_from (S f) GmailAgent st1))).
    { eapply run_from_next; [rewrite step_calendar_eq, Hgoto; reflexivity
                            | reflexivity | reflexivity | discriminate]. }
    rewrite R. clear R.
    pose proof (gmail_cmd_facts st1) as H. cbv zeta in H.
    destruct H as [[r2 [Hr2 Hm2]] [Hq2 [Ha2 [He2 [Hg2 [Hc2 [Hev2 [Hem2 Hgo2]]]]]]]].
    pose proof (apply_specialist_update _ st1 r2 Hr2 Hm2 Hq2 Ha2 He2 Hg2 Hc2) as B. cbv zeta in B.
    set (st2 := apply_update (update (fst (gmail_agent_node st1))) st1) in *.
    destruct B as [Bm [Br [Bq [Ba [Be [Bgi [Bci [Bcont [Bem Bev]]]]]]]]].
    rewrite Hev2 in Bev.
    assert (Hem2' : emails st2 = emails st \/ exists e l, emails st2 = Some (e :: l)).
    { destruct Hem2 as [Hn|[e [l Hs]]]; [rewrite Hn in Bem | rewrite Hs in Bem]; eauto.
      left. rewrite Bem. exact Aem. }
    assert (Hev2' : events st2 = events st \/ exists e l, events st2 = Some (e :: l)).
    { rewrite Bev. exact Hev1. }
    assert (Hmsg : messages st2 = (messages st ++ map (fun x => mkMsg "ai" x) [r; r2])%list).
    { rewrite Bm, Am. rewrite <- app_assoc. reflexivity. }
    destruct Hgo2 as [[Hgoto2 _]|[[Hgoto2 _]|[_ Hfirst2]]].
    + assert (R : run_from (S f) GmailAgent st1 =
                  ([mkInvocation GmailAgent (snd (gmail_agent_node st1))], Interrupted st2)).
      { apply run_from_pause. rewrite step_gmail_eq, Hgoto2. reflexivity. }
      rewrite R. exists st2, [r; r2]. cbn [fst snd map length last In].
      repeat split; auto; try congruence; intros Hn; exfalso; auto.
    + assert (R : run_from (S f) GmailAgent st1 =
                  ([mkInvocation GmailAgent (snd (gmail_agent_node st1))], Ended st2)).
      { apply run_from_end. rewrite step_gmail_eq, Hgoto2. reflexivity. }
      rewrite R. exists st2, [r; r2]. cbn [fst snd map length last In].
      repeat split; auto; try congruence; intros Hn; exfalso; auto.
    + rewrite Ae in Hfirst2. exfalso. exact (is_str_gmail_calendar_first _ Hfirst2 Hfirst).
Qed.

Lemma run_from_failed (f : nat) (n : node) (st st' : UnifiedState) (inv : Invocation) :
  step n st = (inv, st', None) ->
  run_from (S f) n st = ([inv], Failed st).
Proof. intros Hs. simpl. rewrite Hs. reflexivity. Qed.

Lemma orchestrator_paths_dest (key d : string) :
  path_lookup orchestrator_paths key = Some d ->
  (d = "gmail_agent" /\ node_of_name d = Some GmailAgent) \/
  (d = "calendar_agent" /\ node_of_name d = Some CalendarAgent).
Proof.
  cbn [path_lookup orchestrator_paths].
  destruct (String.eqb "gmail_agent" key); [intros H; injection H as <-; auto|].
  destruct (String.eqb "calendar_agent" key); [intros H; injection H as <-; auto|].
  discriminate.
Qed.

(** The first two steps of a turn: [user_input] appends the query as a human
    message and leaves the caches alone, then the orchestrator (which adds no
    message) either fails to route or hands over to one specialist. *)
Lemma turn_cases (st : UnifiedState) :
  (exists st1,
     messages st1 = (messages st ++ [mkMsg "human" (user_query st)])%list /\
     user_query st1 = user_query st /\ emails st1 = emails st /\ events st1 = events st /\
     run_turn st = ([mkInvocation UserInput None; mkInvocation Orchestrator None], Failed st1)) \/
  (exists st2 n other,
     ((n = GmailAgent /\ other = CalendarAgent) \/ (n = CalendarAgent /\ other = GmailAgent)) /\
     messages st2 = (messages st ++ [mkMsg "human" (user_query st)])%list /\
     user_query st2 = user_query st /\ emails st2 = emails st /\ events st2 = events st /\
     run_turn st = (mkInvocation UserInput None :: mkInvocation Orchestrator None :: fst (run_from 4 n st2),
                    snd (run_from 4 n st2))).
Proof.
  set (st1 := apply_update (user_input_node st) st).
  set (st2 := apply_update (orchestrator_node st1) st1).
  assert (S1 : step UserInput st = (mkInvocation UserInput None, st1, Some "orchestrator"))
    by reflexivity.
  unfold run_turn.
  rewrite (run_from_next 5 UserInput Orchestrator st st1 _ _ S1 eq_refl eq_refl) by discriminate.
  cbn [fst snd].
  assert (S2 : step Orchestrator st1 =
               (mkInvocation Orchestrator None, st2, path_lookup orchestrator_paths (route_to_agent st2)))
    by reflexivity.
  assert (F2 : messages st2 = (messages st ++ [mkMsg "human" (user_query st)])%list /\
               user_query st2 = user_query st /\ emails st2 = emails st /\ events st2 = events st).
  { cbn. rewrite app_nil_r. repeat split. }
  destruct (path_lookup orchestrator_paths (route_to_agent st2)) as [d|] eqn:Hp.
  - right. exists st2.
    destruct (orchestrator_paths_dest _ _ Hp) as [[-> Hn]|[-> Hn]];
      [exists GmailAgent, CalendarAgent | exists CalendarAgent, GmailAgent];
      (split; [auto|]); (split; [apply F2|]); (split; [apply F2|]); (split; [apply F2|]);
      (split; [apply F2|]);
      rewrite (run_from_next 4 Orchestrator _ st1 st2 _ _ S2 eq_refl Hn) by discriminate;
      reflexivity.
  - left. exists st1. rewrite (run_from_failed 4 Orchestrator st1 st2 _ S2).
    cbn. repeat split.
Qed.

(** A turn runs [user_input] and the orchestrator once each, then at most one
    execution of each specialist: the only node sequences are the five below.
    A turn never runs out of steps: it fails only when routing fails right
    after the orchestrator, and otherwise pauses for input or reaches [END]. *)
Theorem turn_node_sequence (st : UnifiedState) :
  let nodes := map inv_node (fst (run_turn st)) in
  (nodes = [UserInput; Orchestrator] /\ exists st', snd (run_turn st) = Failed st') \/
  ((nodes = [UserInput; Orchestrator; GmailAgent] \/
    nodes = [UserInput; Orchestrator; CalendarAgent] \/
    nodes = [UserInput; Orchestrator; GmailAgent; CalendarAgent] \/
    nodes = [UserInput; Orchestrator; CalendarAgent; GmailAgent]) /\
   exists st', snd (run_turn st) = Interrupted st' \/ snd (run_turn st) = Ended st').
Proof.
  cbv zeta.
  destruct (turn_cases st) as [[st1 [_ [_ [_ [_ R]]]]]|[st2 [n [other [Hn [_ [_ [_ [_ R]]]]]]]]];
    rewrite R; cbn [fst snd map].
  - left. eauto.
  - right. destruct Hn as [[-> ->]|[-> ->]].
    + destruct (gmail_run_summary 2 st2) as [st' [rs [Ho [Hl _]]]].
      destruct Hl as [Hl|Hl]; rewrite Hl; split; eauto.
    + destruct (calendar_run_summary 2 st2) as [st' [rs [Ho [Hl _]]]].
      destruct Hl as [Hl|Hl]; rewrite Hl; split; eauto 6.
Qed.


(** A turn never clears a cache: [emails] and [events] are either unchanged or
    a non-empty list, and each is unchanged when its specialist did not run. *)
Theorem turn_caches (st : UnifiedState) :
  let nodes := map inv_node (fst (run_turn st)) in
  match snd (run_turn st) with
  | Interrupted st' | Ended st' | Failed st' =>
      (emails st' = emails st \/ exists e l, emails st' = Some (e :: l)) /\
      (events st' = events st \/ exists e l, events st' = Some (e :: l)) /\
      (~ In GmailAgent nodes -> emails st' = emails st) /\
      (~ In CalendarAgent nodes -> events st' = events st)
  | OutOfFuel _ => False
  end.
Proof.
  cbv zeta.
  destruct (turn_cases st) as [[st1 [_ [_ [He [Hv R]]]]]|[st2 [n [other [Hn [_ [_ [He [Hv R]]]]]]]]];
    rewrite R; cbn [fst snd map].
  - auto.
  - assert (S : specialist_run_summary n other st2 (run_from 4 n st2)).
    { destruct Hn as [[-> ->]|[-> ->]]; [apply gmail_run_summary | apply calendar_run_summary]. }
    destruct S as [st' [rs [Ho [_ [_ [_ [_ [_ [E [V [NE NV]]]]]]]]]]].
    rewrite He in E, NE. rewrite Hv in V, NV.
    assert (G : (emails st' = emails st \/ exists e l, emails st' = Some (e :: l)) /\
      (events st' = events st \/ exists e l, events st' = Some (e :: l)) /\
      (~ In GmailAgent (UserInput :: Orchestrator :: map inv_node (fst (run_from 4 n st2))) ->
       emails st' = emails st) /\
      (~ In CalendarAgent (UserInput :: Orchestrator :: map inv_node (fst (run_from 4 n st2))) ->
       events st' = events st)).
    { repeat split; auto; intros Hi; [apply NE | apply NV]; intros Hi'; apply Hi; right; right; exact Hi'. }
    destruct Ho as [-> | ->]; exact G.
Qed.

(** Whenever a run stops at [END], [continue_conversation] is [False] (the
    runner's loop then exits), and whenever it pauses for input it is [True]. *)
Theorem run_stop_flag (fuel : nat) (n : node) (st : UnifiedState) :
  match snd (run_from fuel n st) with
  | Interrupted st' => continue_conversation st' = Some true
  | Ended st' => continue_conversation st' = Some false
  | _ => True
  end.
Proof.
  revert n st. induction fuel as [|f IH]; intros n st; [exact I|].
  destruct n.
  - set (st1 := apply_update (user_input_node st) st).
    assert (S1 : step UserInput st = (mkInvocation UserInput None, st1, Some "orchestrator"))
      by reflexivity.
    rewrite (run_from_next f UserInput Orchestrator st st1 _ _ S1 eq_refl eq_refl) by discriminate.
    apply IH.
  - set (st2 := apply_update (orchestrator_node st) st).
    assert (S2 : step Orchestrator st =
                 (mkInvocation Orchestrator None, st2, path_lookup orchestrator_paths (route_to_agent st2)))
      by reflexivity.
    destruct (path_lookup orchestrator_paths (route_to_agent st2)) as [d|] eqn:Hp.
    + destruct (orchestrator_paths_dest _ _ Hp) as [[-> Hn]|[-> Hn]];
        rewrite (run_from_next f Orchestrator _ st st2 _ _ S2 eq_refl Hn) by discriminate;
        apply IH.
    + rewrite (run_from_failed f Orchestrator st st2 _ S2). exact I.
  - pose proof (gmail_cmd_facts st) as H. cbv zeta in H.
    destruct H as [[r [Hr Hm]] [Hq [Ha [He [Hg [Hc [_ [_ Hgo]]]]]]]].
    pose proof (apply_specialist_update _ st r Hr Hm Hq Ha He Hg Hc) as A. cbv zeta in A.
    destruct A as [_ [_ [_ [_ [_ [_ [_ [Acont _]]]]]]]].
    pose proof (step_gmail_eq st) as HS.
    destruct Hgo as [[Hgoto Hk]|[[Hgoto Hk]|[Hgoto _]]]; rewrite Hgoto in HS.
    + rewrite (run_from_pause _ _ _ _ _ HS). rewrite Hk in Acont. exact Acont.
    + rewrite (run_from_end _ _ _ _ _ HS). rewrite Hk in Acont. exact Acont.
    + rewrite (run_from_next f _ CalendarAgent _ _ _ _ HS eq_refl eq_refl) by discriminate.
      apply IH.
  - pose proof (calendar_cmd_facts st) as H. cbv zeta in H.
    destruct H as [[r [Hr Hm]] [Hq [Ha [He [Hg [Hc [_ [_ Hgo]]]]]]]].
    pose proof (apply_specialist_update _ st r Hr Hm Hq Ha He Hg Hc) as A. cbv zeta in A.
    destruct A as [_ [_ [_ [_ [_ [_ [_ [Acont _]]]]]]]].
    pose proof (step_calendar_eq st) as HS.
    destruct Hgo as [[Hgoto Hk]|[[Hgoto Hk]|[Hgoto _]]]; rewrite Hgoto in HS.
    + rewrite (run_from_pause _ _ _ _ _ HS). rewrite Hk in Acont. exact Acont.
    + rewrite (run_from_end _ _ _ _ _ HS). rewrite Hk in Acont. exact Acont.
    + rewrite (run_from_next f _ GmailAgent _ _ _ _ HS eq_refl eq_refl) by discriminate.
      apply IH.
Qed.

Lemma build_context_non_string (v : jval) (existing : list Msg) :
  existing <> [] -> (forall s, v <> JStr s) ->
  build_conversation_context v existing = Raised (concat_type_error v).
Proof.
  intros Hne Hv. destruct existing as [|m ms]; [contradiction|].
  unfold build_conversation_context.
  assert (Ht : py_tail 5 (m :: ms) <> []).
  { intros H. pose proof (py_tail_length 5 (m :: ms)) as Hl. rewrite H in Hl.
    cbn [length] in Hl. lia. }
  destruct (py_tail 5 (m :: ms)) as [|x xs]; [contradiction|].
  cbn [map]. destruct v; try reflexivity. exfalso. exact (Hv _ eq_refl).
Qed.

(** A specialist whose instruction is a decoded JSON value that is not a
    string (for instance [null] or a number), given a non-empty history,
    fails while building its context, before its agent runs: it returns to
    [user_input] with the [TypeError] of the string concatenation. *)
Theorem specialist_non_string_instruction (st : UnifiedState) (v : jval) :
  messages st <> [] -> (forall s, v <> JStr s) ->
  (get_gmail_tools_raises = None -> gmail_instruction st = Some v ->
   gmail_agent_node st =
   (mkCommand "user_input" (error_update ("Error processing Gmail query: " ++ concat_type_error v)), None)) /\
  (get_calendar_tools_raises = None -> calendar_instruction st = Some v ->
   calendar_agent_node st =
   (mkCommand "user_input" (error_update ("Error processing Calendar query: " ++ concat_type_error v)), None)).
Proof.
  intros Hne Hv. split; intros Ht Hi.
  - unfold gmail_agent_node, gmail_try. rewrite Ht, Hi. cbn [get_or].
    rewrite (build_context_non_string v _ Hne Hv). reflexivity.
  - unfold calendar_agent_node, calendar_try. rewrite Ht, Hi. cbn [get_or].
    rewrite (build_context_non_string v _ Hne Hv). reflexivity.
Qed.

Lemma str_length_app (a b : string) : String.length (a ++ b) = String.length a + String.length b.
Proof. induction a as [|x a IH]; cbn; [reflexivity | now rewrite IH]. Qed.

Lemma str_find_at (c : ascii) (pre rest : string) :
  str_find c pre = None -> str_find c (pre ++ String c rest) = Some (String.length pre).
Proof.
  induction pre as [|x pre IH]; cbn [str_find append String.length].
  - rewrite Ascii.eqb_refl. reflexivity.
  - destruct (Ascii.eqb c x); [discriminate|]. intros H.
    destruct (str_find c pre); [discriminate|]. rewrite IH by reflexivity. reflexivity.
Qed.

Lemma str_rfind_at (c : ascii) (mid post : string) :
  str_rfind c post = None -> str_rfind c (mid ++ String c post) = Some (String.length mid).
Proof.
  intros Hp. induction mid as [|x mid IH]; cbn [str_rfind append String.length].
  - rewrite Hp, Ascii.eqb_refl. reflexivity.
  - rewrite IH. reflexivity.
Qed.

Lemma str_rfind_none (c : ascii) (s : string) :
  str_rfind c s = None <-> str_find c s = None.
Proof.
  induction s as [|x s IH]; cbn [str_rfind str_find]; [tauto|].
  destruct (str_rfind c s), (str_find c s), (Ascii.eqb c x); cbn; split; intros H;
    try discriminate; try reflexivity; destruct IH as [I1 I2];
    first [discriminate (I1 eq_refl) | discriminate (I2 eq_refl)].
Qed.

Lemma substring_after (pre s : string) (m : nat) :
  substring (String.length pre) m (pre ++ s) = substring 0 m s.
Proof. induction pre as [|x pre IH]; [reflexivity|]. exact IH. Qed.

Lemma substring_prefix (x y : string) :
  substring 0 (String.length x) (x ++ y) = x.
Proof. induction x as [|a x IH]; [destruct y; reflexivity|]. cbn. rewrite IH. reflexivity. Qed.

Lemma json_span_framed (pre body post : string) :
  str_find "{" pre = None -> str_rfind "}" post = None ->
  json_span (pre ++ "{" ++ body ++ "}" ++ post) = "{" ++ body ++ "}".
Proof.
  intros Hpre Hpost. unfold json_span.
  assert (Hf : str_find "{" (pre ++ "{" ++ body ++ "}" ++ post) = Some (String.length pre))
    by exact (str_find_at "{" pre (body ++ "}" ++ post) Hpre).
  assert (E : pre ++ "{" ++ body ++ "}" ++ post = (pre ++ "{" ++ body) ++ String "}" post)
    by (rewrite !str_app_assoc; reflexivity).
  assert (Hr : str_rfind "}" (pre ++ "{" ++ body ++ "}" ++ post)
               = Some (String.length (pre ++ "{" ++ body))).
  { rewrite E. exact (str_rfind_at "}" (pre ++ "{" ++ body) post Hpost). }
  rewrite Hf, Hr. cbn [get_or]. unfold py_slice.
  assert (E2 : pre ++ "{" ++ body ++ "}" ++ post = pre ++ ("{" ++ body ++ "}") ++ post)
    by (rewrite !str_app_assoc; reflexivity).
  rewrite E2.
  replace (String.length (pre ++ "{" ++ body) + 1 - String.length pre)
    with (String.length ("{" ++ body ++ "}"))
    by (rewrite !str_length_app; cbn [String.length append]; rewrite ?str_length_app; cbn [String.length]; lia).
  rewrite substring_after. apply substring_prefix.
Qed.

Lemma str_contains_app_char (c : ascii) (pre post : string) :
  str_contains c (pre ++ String c post) = true.
Proof.
  unfold str_contains. induction pre as [|x pre IH]; cbn [str_find append].
  - rewrite Ascii.eqb_refl. reflexivity.
  - destruct (Ascii.eqb c x); [reflexivity|].
    destruct (str_find c (pre ++ String c post)); [reflexivity|discriminate].
Qed.

Lemma framed_contains_braces (pre body post : string) :
  str_contains "{" (pre ++ "{" ++ body ++ "}" ++ post) = true /\
  str_contains "}" (pre ++ "{" ++ body ++ "}" ++ post) = true.
Proof.
  split; [exact (str_contains_app_char "{" pre (body ++ "}" ++ post))|].
  replace (pre ++ "{" ++ body ++ "}" ++ post) with ((pre ++ "{" ++ body) ++ String "}" post)
    by (rewrite !str_app_assoc; reflexivity).
  apply str_contains_app_char.
Qed.

(** The orchestrator reads its decision from the text between the first ["{"]
    and the last ["}"]: prose before the object (without a ["{"]) and after it
    (without a ["}"]) does not change the decision. *)
Theorem classify_ignores_surrounding_text (uq pre body post : string) :
  str_contains "{" pre = false -> str_contains "}" post = false ->
  classify uq (OrchOutput (pre ++ "{" ++ body ++ "}" ++ post)) =
  classify uq (OrchOutput ("{" ++ body ++ "}")).
Proof.
  intros Hp Hq. unfold str_contains in Hp, Hq.
  destruct (str_find "{" pre) eqn:Hfp; [discriminate|].
  destruct (str_find "}" post) eqn:Hfq; [discriminate|].
  apply str_rfind_none in Hfq.
  cbn [classify]. unfold parse_routing.
  destruct (framed_contains_braces pre body post) as [-> ->].
  rewrite json_span_framed by assumption.
  destruct (framed_contains_braces "" body "") as [C1 C2].
  pose proof (json_span_framed "" body "" eq_refl eq_refl) as J.
  change ("" ++ "{" ++ body ++ "}" ++ "") with ("{" ++ body ++ ("}" ++ "")) in C1, C2, J.
  rewrite str_app_nil_r in C1, C2, J. rewrite C1, C2, J. reflexivity.
Qed.


End Graph.


(** ** Ordinal references in the Gmail tools *)

Lemma py_index_in_range {A} (l : list A) (i : Z) :
  (0 <= i < Z.of_nat (length l))%Z ->
  exists x, py_index l i = Some x /\ nth_error l (Z.to_nat i) = Some x.
Proof.
  intros Hi. unfold py_index.
  destruct (Z.ltb_spec i 0); [lia|].
  destruct (nth_error l (Z.to_nat i)) eqn:E.
  - eauto.
  - apply nth_error_None in E. lia.
Qed.

Lemma email_at_in_range (emails : list Email) (k : Z) :
  (1 <= k <= Z.of_nat (length emails))%Z ->
  exists e, nth_error emails (Z.to_nat (k - 1)) = Some e /\
            GmailToolsOrdinal.email_at emails k = Returns (email_id e).
Proof.
  intros Hk. destruct (py_index_in_range emails (k - 1)) as [e [He Hn]]; [lia|].
  exists e. split; [exact Hn|]. unfold GmailToolsOrdinal.email_at. rewrite He. reflexivity.
Qed.

Lemma range_test_false (emails : list Email) (k : Z) :
  (1 <= k <= Z.of_nat (length emails))%Z ->
  ((k <? 1)%Z || (Z.of_nat (length emails) <? k)%Z) = false.
Proof.
  intros Hk. apply orb_false_iff. split; apply Z.ltb_ge; lia.
Qed.

Lemma range_test_true (emails : list Email) (k : Z) :
  ~ (1 <= k <= Z.of_nat (length emails))%Z ->
  ((k <? 1)%Z || (Z.of_nat (length emails) <? k)%Z) = true.
Proof.
  intros Hk. apply orb_true_iff.
  destruct (Z.ltb_spec k 1); [left; reflexivity|].
  right. apply Z.ltb_lt. lia.
Qed.

(** C5: over the cached email list of length [N], [read_email] and
    [reply_to_email] resolve the ordinal [email_number] to the email at
    position [email_number - 1] exactly when [1 <= email_number <= N], and then
    act on that email's id; otherwise they return the empty-cache or the
    invalid-number message.  Neither ever raises. *)
Theorem ordinal_reference_resolution
  (get_email : string -> option GmailToolsOrdinal.EmailDetail)
  (service_reply : string -> string -> bool)
  (emails : list Email) (email_number : Z) (reply_body : string) :
  ((1 <= email_number <= Z.of_nat (length emails))%Z ->
     exists e, nth_error emails (Z.to_nat (email_number - 1)) = Some e /\
       GmailToolsOrdinal.read_email get_email emails email_number =
         Returns (match get_email (email_id e) with
                  | None => "Could not retrieve email details."
                  | Some d => GmailToolsOrdinal.format_details d
                  end) /\
       GmailToolsOrdinal.reply_to_email service_reply emails email_number reply_body =
         Returns (if service_reply (email_id e) reply_body
                  then "Reply sent successfully to email " ++ str_nat (Z.to_nat email_number)
                  else "Failed to send reply")) /\
  (~ (1 <= email_number <= Z.of_nat (length emails))%Z ->
     GmailToolsOrdinal.read_email get_email emails email_number =
       Returns (match emails with
                | [] => "No emails in context. Please list or search for emails first."
                | _ => GmailToolsOrdinal.invalid_number_msg emails
                end) /\
     GmailToolsOrdinal.reply_to_email service_reply emails email_number reply_body =
       Returns (match emails with
                | [] => "No emails in context. Please list emails first."
                | _ => GmailToolsOrdinal.invalid_number_msg emails
                end)) /\
  (forall err,
     GmailToolsOrdinal.read_email get_email emails email_number <> Raised err /\
     GmailToolsOrdinal.reply_to_email service_reply emails email_number reply_body <> Raised err).
Proof.
  assert (Hin : (1 <= email_number <= Z.of_nat (length emails))%Z ->
     exists e, nth_error emails (Z.to_nat (email_number - 1)) = Some e /\
       GmailToolsOrdinal.read_email get_email emails email_number =
         Returns (match get_email (email_id e) with
                  | None => "Could not retrieve email details."
                  | Some d => GmailToolsOrdinal.format_details d
                  end) /\
       GmailToolsOrdinal.reply_to_email service_reply emails email_number reply_body =
         Returns (if service_reply (email_id e) reply_body
                  then "Reply sent successfully to email " ++ str_nat (Z.to_nat email_number)
                  else "Failed to send reply")).
  { intros Hk. destruct (email_at_in_range emails email_number Hk) as [e [Hn He]].
    exists e. split; [exact Hn|].
    assert (Hne : emails <> []) by (intros ->; simpl in Hk; lia).
    unfold GmailToolsOrdinal.read_email, GmailToolsOrdinal.reply_to_email.
    rewrite (range_test_false _ _ Hk), He.
    destruct emails as [|x xs]; [congruence|].
    split; [destruct (get_email (email_id e)); reflexivity|].
    destruct (service_reply (email_id e) reply_body); reflexivity. }
  assert (Hout : ~ (1 <= email_number <= Z.of_nat (length emails))%Z ->
     GmailToolsOrdinal.read_email get_email emails email_number =
       Returns (match emails with
                | [] => "No emails in context. Please list or search for emails first."
                | _ => GmailToolsOrdinal.invalid_number_msg emails
                end) /\
     GmailToolsOrdinal.reply_to_email service_reply emails email_number reply_body =
       Returns (match emails with
                | [] => "No emails in context. Please list emails first."
                | _ => GmailToolsOrdinal.invalid_number_msg emails
                end)).
  { intros Hk. unfold GmailToolsOrdinal.read_email, GmailToolsOrdinal.reply_to_email.
    rewrite (range_test_true _ _ Hk).
    destruct emails; split; reflexivity. }
  split; [exact Hin|]. split; [exact Hout|].
  intros err.
  destruct (Z_le_dec 1 email_number) as [H1|H1];
  [destruct (Z_le_dec email_number (Z.of_nat (length emails))) as [H2|H2]|].
  - destruct (Hin (conj H1 H2)) as [e [_ [Hr Hp]]]. rewrite Hr, Hp.
    split; discriminate.
  - destruct Hout as [Hr Hp]; [lia|]. rewrite Hr, Hp. split; discriminate.
  - destruct Hout as [Hr Hp]; [lia|]. rewrite Hr, Hp. split; discriminate.
Qed.


(** *** Gmail tools acting on one numbered email *)

Lemma single_email_action_spec (call : string -> GmailTools.GmailCall) (service : string -> bool)
  (s f : string) (emails : list Email) (k : Z) :
  ((1 <= k <= Z.of_nat (length emails))%Z ->
   exists e, nth_error emails (Z.to_nat (k - 1)) = Some e /\
     GmailTools.single_email_action call service s f emails k =
     (Returns (if service (email_id e) then s else f), [call (email_id e)])) /\
  (~ (1 <= k <= Z.of_nat (length emails))%Z ->
   GmailTools.single_email_action call service s f emails k =
   (Returns (match emails with
             | [] => "No emails in context. Please list emails first."
             | _ => GmailToolsOrdinal.invalid_number_msg emails
             end), [])).
Proof.
  split; intros Hk.
  - destruct (email_at_in_range emails k Hk) as [e [Hn He]]. exists e. split; [exact Hn|].
    unfold GmailTools.single_email_action.
    destruct emails as [|x xs]; [cbn in Hk; lia|].
    rewrite (range_test_false _ _ Hk), He. reflexivity.
  - unfold GmailTools.single_email_action.
    destruct emails as [|x xs]; [reflexivity|].
    rewrite (range_test_true _ _ Hk). reflexivity.
Qed.

Lemma range_dec (emails : list Email) (k : Z) :
  {(1 <= k <= Z.of_nat (length emails))%Z} + {~ (1 <= k <= Z.of_nat (length emails))%Z}.
Proof.
  destruct (Z_le_dec 1 k); [|right; lia].
  destruct (Z_le_dec k (Z.of_nat (length emails))); [left; lia | right; lia].
Qed.

(** [archive_email], [trash_email], [delete_email] and [mark_email_as_read]
    never raise.  For [1 <= email_number <= len(emails)] each makes exactly one
    service call, on the id of the email at position [email_number - 1];
    otherwise it makes no call and answers with the empty-cache or the
    invalid-number message. *)
Theorem email_action_tools_target
  (svc : GmailTools.GmailService) (emails : list Email) (k : Z) :
  Forall (fun tc : (list Email -> Z -> Raises string * list GmailTools.GmailCall)
                   * (string -> GmailTools.GmailCall) =>
            let tool := fst tc in
            let call := snd tc in
            (forall err, fst (tool emails k) <> Raised err) /\
            ((1 <= k <= Z.of_nat (length emails))%Z ->
             exists e, nth_error emails (Z.to_nat (k - 1)) = Some e /\
                       snd (tool emails k) = [call (email_id e)]) /\
            (~ (1 <= k <= Z.of_nat (length emails))%Z ->
             tool emails k =
             (Returns (match emails with
                       | [] => "No emails in context. Please list emails first."
                       | _ => GmailToolsOrdinal.invalid_number_msg emails
                       end), [])))
    [(GmailTools.archive_email svc, GmailTools.CallArchive);
     (GmailTools.trash_email svc, GmailTools.CallTrash);
     (GmailTools.delete_email svc, GmailTools.CallDelete);
     (GmailTools.mark_email_as_read svc, GmailTools.CallMarkRead)].
Proof.
  repeat apply Forall_cons; try apply Forall_nil; cbn [fst snd];
  match goal with
  | |- context [?tool emails k] =>
      let t := eval red in (tool emails k) in
      change (tool emails k) with t;
      match t with
      | GmailTools.single_email_action ?c ?sv ?s ?f _ _ =>
          destruct (single_email_action_spec c sv s f emails k) as [Hin Hout]
      end
  end;
  refine (conj _ (conj _ _));
  first
  [ exact Hout
  | intros Hk; destruct (Hin Hk) as [e [Hn ->]]; eauto
  | intros err; destruct (range_dec emails k) as [Hk|Hk];
      [ destruct (Hin Hk) as [e [_ ->]] | rewrite (Hout Hk) ]; discriminate ].
Qed.

Lemma find_first {A} (p : A -> bool) (pre : list A) (x : A) (post : list A) :
  Forall (fun y => p y = false) pre -> p x = true -> find p (pre ++ x :: post) = Some x.
Proof.
  intros Hpre Hx. induction Hpre as [|y pre Hy _ IH]; cbn; [now rewrite Hx | now rewrite Hy].
Qed.

Lemma find_none {A} (p : A -> bool) (l : list A) :
  Forall (fun y => p y = false) l -> find p l = None.
Proof. intros H. induction H as [|y l Hy _ IH]; cbn; [reflexivity | now rewrite Hy]. Qed.

Lemma label_action_spec (call : string -> string -> GmailTools.GmailCall)
  (service : string -> string -> bool) (upper : string -> string) (labels : list GmailTools.Label)
  (s f : string) (emails : list Email) (k : Z) (name : string) :
  let tool := GmailTools.label_action call service upper labels s f emails k name in
  (~ (1 <= k <= Z.of_nat (length emails))%Z -> snd tool = []) /\
  ((1 <= k <= Z.of_nat (length emails))%Z ->
   Forall (fun l => GmailTools.label_matches upper name l = false) labels ->
   tool = (Returns ("Label '" ++ name ++ "' not found. Use get_labels to see available labels."),
           [GmailTools.CallGetLabels])) /\
  ((1 <= k <= Z.of_nat (length emails))%Z ->
   forall pre l post, labels = (pre ++ l :: post)%list ->
   Forall (fun l' => GmailTools.label_matches upper name l' = false) pre ->
   GmailTools.label_matches upper name l = true -> GmailTools.lbl_id l <> "" ->
   exists e, nth_error emails (Z.to_nat (k - 1)) = Some e /\
             snd tool = [GmailTools.CallGetLabels; call (email_id e) (GmailTools.lbl_id l)]).
Proof.
  cbv zeta. unfold GmailTools.label_action. split; [|split].
  - intros Hk. destruct emails as [|x xs]; [reflexivity|].
    rewrite (range_test_true _ _ Hk). reflexivity.
  - intros Hk Hl. destruct emails as [|x xs]; [cbn in Hk; lia|].
    rewrite (range_test_false _ _ Hk). unfold GmailTools.find_label_id.
    rewrite (find_none _ _ Hl). reflexivity.
  - intros Hk pre l post -> Hpre Hl Hid.
    destruct (email_at_in_range emails k Hk) as [e [Hn He]]. exists e. split; [exact Hn|].
    destruct emails as [|x xs]; [cbn in Hk; lia|].
    rewrite (range_test_false _ _ Hk). unfold GmailTools.find_label_id.
    rewrite (find_first _ _ _ _ Hpre Hl).
    apply String.eqb_neq in Hid. rewrite Hid, He. reflexivity.
Qed.

(** [add_label_to_email] and [remove_label_from_email] check the email number
    before anything else: out of range they make no service call at all.  In
    range they fetch the labels once; the first label whose name or id equals
    [label_name] up to [str.upper] is applied to the email at position
    [email_number - 1] (when its id is non-empty), and when no label matches
    they answer that the label was not found, having made no change. *)
Theorem label_tools_first_match (upper : string -> string) (svc : GmailTools.GmailService)
  (emails : list Email) (k : Z) (name : string) :
  Forall (fun tc : (list Email -> Z -> string -> Raises string * list GmailTools.GmailCall)
                   * (string -> string -> GmailTools.GmailCall) =>
            let tool := fst tc in
            let call := snd tc in
            (~ (1 <= k <= Z.of_nat (length emails))%Z -> snd (tool emails k name) = []) /\
            ((1 <= k <= Z.of_nat (length emails))%Z ->
             Forall (fun l => GmailTools.label_matches upper name l = false) (GmailTools.svc_get_labels svc) ->
             tool emails k name =
             (Returns ("Label '" ++ name ++ "' not found. Use get_labels to see available labels."),
              [GmailTools.CallGetLabels])) /\
            ((1 <= k <= Z.of_nat (length emails))%Z ->
             forall pre l post, GmailTools.svc_get_labels svc = (pre ++ l :: post)%list ->
             Forall (fun l' => GmailTools.label_matches upper name l' = false) pre ->
             GmailTools.label_matches upper name l = true -> GmailTools.lbl_id l <> "" ->
             exists e, nth_error emails (Z.to_nat (k - 1)) = Some e /\
                       snd (tool emails k name) = [GmailTools.CallGetLabels; call (email_id e) (GmailTools.lbl_id l)]))
    [(GmailTools.add_label_to_email upper svc, GmailTools.CallAddLabel);
     (GmailTools.remove_label_from_email upper svc, GmailTools.CallRemoveLabel)].
Proof.
  repeat apply Forall_cons; try apply Forall_nil; cbn [fst snd];
  match goal with
  | |- context [?tool emails k name] =>
      let t := eval red in (tool emails k name) in
      change (tool emails k name) with t;
      match t with
      | GmailTools.label_action ?c ?sv ?u ?ls ?s ?f _ _ _ =>
          exact (label_action_spec c sv u ls s f emails k name)
      end
  end.
Qed.

(** [GmailTools.create_draft_reply] never stacks reply prefixes: its subject
    always starts with ["Re:"], a subject that already does is kept as it is,
    and drafting a reply to a reply leaves the subject unchanged. *)
Theorem reply_subject_prefix_once (s : string) :
  String.prefix "Re:" (GmailTools.reply_subject s) = true /\
  GmailTools.reply_subject (GmailTools.reply_subject s) = GmailTools.reply_subject s /\
  (String.prefix "Re:" s = true -> GmailTools.reply_subject s = s).
Proof.
  unfold GmailTools.reply_subject.
  destruct (String.prefix "Re:" s) eqn:H.
  - rewrite H. auto.
  - cbn. split; [reflexivity|]. split; [reflexivity|]. discriminate.
Qed.

(** The [create_draft_reply] tool reports the subject as ["Re: "] followed by
    the cached subject, while the draft the service creates keeps a subject
    that already starts with ["Re:"]: for such an email the confirmation shows
    ["Re: Re: ..."] for a draft whose subject has a single prefix. *)
Theorem draft_reply_confirmation_subject (svc : GmailTools.GmailService) (emails : list Email)
  (k : Z) (body : string) (e : Email) (d : string) (headers : list (string * string))
  (thread_id : string) :
  (1 <= k <= Z.of_nat (length emails))%Z ->
  nth_error emails (Z.to_nat (k - 1)) = Some e ->
  GmailTools.svc_create_draft_reply svc (email_id e) body = Some d -> d <> "" ->
  GmailTools.header_get headers "Subject" "" = email_subject e ->
  String.prefix "Re:" (email_subject e) = true ->
  GmailTools.draft_subject (GmailTools.draft_reply_message headers thread_id body) = email_subject e /\
  GmailTools.create_draft_reply svc emails k body =
  (Returns ("Draft reply created successfully!" ++ NL ++ NL ++ "Replying to: " ++ email_from e
            ++ NL ++ "Subject: Re: " ++ email_subject e ++ NL ++ NL
            ++ "You can review and send this draft reply from Gmail. Draft ID: " ++ d),
   [GmailTools.CallCreateDraftReply (email_id e) body]).
Proof.
  intros Hk Hn Hd Hne Hs Hp. split.
  - cbn [GmailTools.draft_reply_message GmailTools.draft_subject].
    rewrite Hs. unfold GmailTools.reply_subject. rewrite Hp. reflexivity.
  - destruct (py_index_in_range emails (k - 1)) as [x [Hx Hnx]]; [lia|].
    rewrite Hn in Hnx. injection Hnx as <-.
    unfold GmailTools.create_draft_reply.
    destruct emails as [|y ys]; [cbn in Hk; lia|].
    rewrite (range_test_false _ _ Hk), Hx, Hd.
    apply String.eqb_neq in Hne. rewrite Hne. reflexivity.
Qed.

Lemma body_loop_select (decode : string -> Raises string) (all_parts parts : list GmailTools.Part) :
  (forall p, In p parts -> In p all_parts) ->
  GmailTools.body_loop decode all_parts parts =
  let has_data p := negb (String.eqb (get_or (GmailTools.part_data p) "") "") in
  if existsb GmailTools.is_plain all_parts then
    match find (fun p => GmailTools.is_plain p && has_data p) parts with
    | Some p => decode (get_or (GmailTools.part_data p) "")
    | None => Returns ""
    end
  else
    match find (fun p => String.eqb (GmailTools.part_mime p) "text/html" && has_data p) parts with
    | Some p => decode (get_or (GmailTools.part_data p) "")
    | None => Returns ""
    end.
Proof.
  cbv zeta. induction parts as [|p rest IH]; intros Hin; [cbn; destruct existsb; reflexivity|].
  assert (IH' := IH (fun q Hq => Hin q (or_intror Hq))).
  cbn [GmailTools.body_loop find].
  destruct (GmailTools.is_plain p) eqn:Hpl.
  - assert (Hm : String.eqb (GmailTools.part_mime p) "text/plain" = true) by exact Hpl.
    rewrite Hm.
    assert (Hall : existsb GmailTools.is_plain all_parts = true).
    { apply existsb_exists. exists p. split; [apply Hin; left; reflexivity | exact Hpl]. }
    rewrite Hall in IH' |- *. cbn [andb].
    destruct (String.eqb (get_or (GmailTools.part_data p) "") ""); cbn [negb]; [exact IH' | reflexivity].
  - assert (Hm : String.eqb (GmailTools.part_mime p) "text/plain" = false) by exact Hpl.
    rewrite Hm. cbn [andb].
    destruct (existsb GmailTools.is_plain all_parts) eqn:Hall; cbn [negb].
    + rewrite andb_false_r. exact IH'.
    + rewrite andb_true_r.
      destruct (String.eqb (GmailTools.part_mime p) "text/html"); cbn [andb]; [|exact IH'].
      destruct (String.eqb (get_or (GmailTools.part_data p) "") ""); cbn [negb]; [exact IH' | reflexivity].
Qed.

(** For a payload with [parts], the body is the decoded data of the first
    [text/plain] part whose data is non-empty.  An HTML part is used only when
    no part at all is [text/plain]: a plain part without data blocks the HTML
    fallback and the body is then empty.  The payload's own [body] is ignored. *)
Theorem get_email_body_selection (decode : string -> Raises string)
  (parts : list GmailTools.Part) (body_data : option string) :
  GmailTools.get_email_body decode (GmailTools.mkPayload (Some parts) body_data) =
  let has_data p := negb (String.eqb (get_or (GmailTools.part_data p) "") "") in
  if existsb GmailTools.is_plain parts then
    match find (fun p => GmailTools.is_plain p && has_data p) parts with
    | Some p => decode (get_or (GmailTools.part_data p) "")
    | None => Returns ""
    end
  else
    match find (fun p => String.eqb (GmailTools.part_mime p) "text/html" && has_data p) parts with
    | Some p => decode (get_or (GmailTools.part_data p) "")
    | None => Returns ""
    end.
Proof. apply body_loop_select. auto. Qed.

(** *** Calendar tools *)

Lemma find_in_some {A} (p : A -> bool) (l : list A) (x : A) :
  In x l -> p x = true -> exists y, find p l = Some y.
Proof.
  induction l as [|y l IH]; [contradiction|]. intros [->|Hin] Hx; cbn.
  - rewrite Hx. eauto.
  - destruct (p y); eauto.
Qed.

(** [lookup_event_by_reference] resolves by position any reference whose
    lower-cased, stripped text contains one of the number words ([first] to
    [fifth], [1st] to [5th]): the title search is then never reached, so an
    event whose title contains such a word cannot be found by its title. *)
Theorem lookup_number_word_precedence (lower strip : string -> string) (isdigit : string -> bool)
  (int : string -> nat) (events : list CalendarTools.CalEvent) (reference w : string) (n : nat) :
  events <> [] -> In (w, n) CalendarTools.number_words ->
  CalendarTools.str_in w (strip (lower reference)) = true ->
  exists m, CalendarTools.lookup_event_by_reference lower strip isdigit int events reference =
            CalendarTools.number_reply events m.
Proof.
  intros Hne Hw Hin. unfold CalendarTools.lookup_event_by_reference.
  destruct events as [|e es]; [contradiction|]. cbv zeta.
  destruct (CalendarTools.assoc _ _) as [m|]; [eauto|].
  destruct (isdigit _); [eauto|].
  destruct (find_in_some (fun wn => CalendarTools.str_in (fst wn) (strip (lower reference)))
              _ _ Hw Hin) as [[w' m] ->].
  eauto.
Qed.

Lemma title_loop_first (lower : string -> string) (r : string) (idx : nat)
  (pre : list CalendarTools.CalEvent) (ev : CalendarTools.CalEvent) (post : list CalendarTools.CalEvent) :
  Forall (fun e => CalendarTools.title_matches lower r e = false) pre ->
  CalendarTools.title_matches lower r ev = true ->
  CalendarTools.title_loop lower r idx (pre ++ ev :: post) = Some (idx + length pre, ev).
Proof.
  intros Hpre Hev. revert idx. induction Hpre as [|e pre He _ IH]; intros idx; cbn.
  - rewrite Hev. f_equal. f_equal. lia.
  - rewrite He, IH. f_equal. f_equal. lia.
Qed.

Lemma str_in_empty (s : string) : CalendarTools.str_in "" s = true.
Proof. destruct s; reflexivity. Qed.

(** When the reference is not a number word, not digits and contains no number
    word, [lookup_event_by_reference] answers with the first event (in cache
    order) whose lower-cased title contains the lower-cased reference or is
    contained in it.  An event without a summary has the empty title, which
    every reference contains: it matches any such reference. *)
Theorem lookup_title_first_match (lower strip : string -> string) (isdigit : string -> bool)
  (int : string -> nat) (reference : string)
  (pre : list CalendarTools.CalEvent) (ev : CalendarTools.CalEvent) (post : list CalendarTools.CalEvent) :
  let ref_lower := strip (lower reference) in
  CalendarTools.assoc ref_lower CalendarTools.number_words = None ->
  isdigit ref_lower = false ->
  Forall (fun wn => CalendarTools.str_in (fst wn) ref_lower = false) CalendarTools.number_words ->
  Forall (fun e => CalendarTools.title_matches lower (lower reference) e = false) pre ->
  CalendarTools.title_matches lower (lower reference) ev = true ->
  CalendarTools.lookup_event_by_reference lower strip isdigit int (pre ++ ev :: post) reference =
  Returns ("Event ID: " ++ CalendarTools.py_str_opt (CalendarTools.cev_id ev) ++ " (Event #"
           ++ str_nat (length pre + 1) ++ ": " ++ CalendarTools.py_str_opt (CalendarTools.cev_summary ev) ++ ")") /\
  (forall e, CalendarTools.cev_summary e = None -> lower "" = "" ->
   CalendarTools.title_matches lower (lower reference) e = true).
Proof.
  cbv zeta. intros Ha Hd Hw Hpre Hev. split.
  - unfold CalendarTools.lookup_event_by_reference.
    destruct (pre ++ ev :: post)%list as [|x xs] eqn:E; [destruct pre; discriminate|].
    cbv zeta. rewrite Ha, Hd, (find_none _ _ Hw), <- E, (title_loop_first _ _ 0 _ _ _ Hpre Hev).
    reflexivity.
  - intros e He Hl. unfold CalendarTools.title_matches. rewrite He. cbn [get_or]. rewrite Hl.
    rewrite str_in_empty. apply orb_true_r.
Qed.

Definition has_email (a : CalendarTools.Attendee) : Prop := CalendarTools.att_email a <> None.

Lemma attendee_emails_ok (l : list CalendarTools.Attendee) :
  Forall has_email l ->
  exists es, CalendarTools.Core.attendee_emails l = Returns es /\
             map Some es = map CalendarTools.att_email l.
Proof.
  induction 1 as [|a l Ha _ [es [He Hm]]]; [exists []; auto|].
  unfold has_email in Ha. cbn. destruct (CalendarTools.att_email a) as [x|]; [|contradiction].
  rewrite He. exists (x :: es). cbn. rewrite Hm. auto.
Qed.

Lemma attendee_emails_returns (l : list CalendarTools.Attendee) (es : list string) :
  CalendarTools.Core.attendee_emails l = Returns es -> Forall has_email l.
Proof.
  revert es. induction l as [|a l IH]; intros es H; [constructor|].
  cbn in H. destruct (CalendarTools.att_email a) as [x|] eqn:Ha; [|discriminate].
  destruct (CalendarTools.Core.attendee_emails l) as [es'|] eqn:Hl; [|discriminate].
  constructor; [unfold has_email; congruence | exact (IH es' eq_refl)].
Qed.

Lemma attendee_emails_missing (l : list CalendarTools.Attendee) :
  ~ Forall has_email l -> exists err, CalendarTools.Core.attendee_emails l = Raised err.
Proof.
  intros H. destruct (CalendarTools.Core.attendee_emails l) as [es|err] eqn:E; [|eauto].
  exfalso. exact (H (attendee_emails_returns l es E)).
Qed.

Lemma add_loop_filter (es : list string) (acc : list CalendarTools.Attendee) (req : list string) :
  CalendarTools.Core.add_loop es acc req =
  (acc ++ map (fun e => CalendarTools.mkAttendee (Some e) None None)
             (filter (fun e => negb (existsb (String.eqb e) es)) req))%list.
Proof.
  revert acc. induction req as [|e req IH]; intros acc; cbn; [now rewrite app_nil_r|].
  rewrite IH. destruct (existsb (String.eqb e) es); cbn; [reflexivity|].
  now rewrite <- app_assoc.
Qed.

Lemma count_email_new (e : string) (l : list string) :
  CalendarTools.count_email e (map (fun x => CalendarTools.mkAttendee (Some x) None None) l) =
  count_occ string_dec l e.
Proof.
  induction l as [|x l IH]; [reflexivity|]. unfold CalendarTools.count_email in *. cbn.
  destruct (string_dec x e) as [->|Hne].
  - rewrite String.eqb_refl. cbn. now rewrite IH.
  - apply String.eqb_neq in Hne. rewrite Hne. exact IH.
Qed.

Lemma count_occ_filter (p : string -> bool) (l : list string) (e : string) :
  count_occ string_dec (filter p l) e = if p e then count_occ string_dec l e else 0.
Proof.
  induction l as [|x l IH]; cbn; [destruct (p e); reflexivity|].
  destruct (string_dec x e) as [->|Hne].
  - destruct (p e) eqn:Hp; cbn; [destruct (string_dec e e); [|contradiction]; now rewrite IH | exact IH].
  - destruct (p x); cbn; [destruct (string_dec x e); [contradiction|] |]; exact IH.
Qed.

Lemma existsb_eqb_in (e : string) (es : list string) :
  existsb (String.eqb e) es = true <-> In e es.
Proof.
  rewrite existsb_exists. split.
  - intros [x [Hx He]]. apply String.eqb_eq in He. now subst.
  - intros H. exists e. split; [exact H | apply String.eqb_refl].
Qed.

(** [add_attendees] fails with a [KeyError] when a current attendee has no
    email.  Otherwise it keeps the current attendees in place and appends
    entries after them: every requested email is then present, an email that
    was already present is not added again, and a new email is added once per
    occurrence in the request (so a repeated new email is added twice). *)
Theorem add_attendees_effect (existing : list CalendarTools.Attendee) (req : list string) :
  (Forall has_email existing ->
   exists added,
     CalendarTools.Core.add_attendees existing req = Returns (existing ++ added)%list /\
     (forall e, In e req -> exists a, In a (existing ++ added)%list /\ CalendarTools.att_email a = Some e) /\
     (forall e, In (Some e) (map CalendarTools.att_email existing) -> CalendarTools.count_email e added = 0) /\
     (forall e, ~ In (Some e) (map CalendarTools.att_email existing) ->
                CalendarTools.count_email e added = count_occ string_dec req e)) /\
  (~ Forall has_email existing -> exists err, CalendarTools.Core.add_attendees existing req = Raised err).
Proof.
  split.
  - intros Hall. destruct (attendee_emails_ok existing Hall) as [es [He Hm]].
    set (keep := fun e => negb (existsb (String.eqb e) es)).
    assert (Hin : forall e, In (Some e) (map CalendarTools.att_email existing) <-> In e es).
    { intros e. rewrite <- Hm, in_map_iff. split; [intros [x [Hx Hi]]; congruence | eauto]. }
    exists (map (fun e => CalendarTools.mkAttendee (Some e) None None) (filter keep req)).
    unfold CalendarTools.Core.add_attendees. rewrite He, add_loop_filter.
    split; [reflexivity|]. split; [|split].
    + intros e Hr. destruct (keep e) eqn:Hk.
      * exists (CalendarTools.mkAttendee (Some e) None None). split; [|reflexivity].
        apply in_or_app. right. apply in_map_iff. exists e. split; [reflexivity|].
        apply filter_In. auto.
      * unfold keep in Hk. apply negb_false_iff, existsb_eqb_in in Hk.
        apply Hin in Hk. apply in_map_iff in Hk. destruct Hk as [a [Ha Hi]].
        exists a. split; [apply in_or_app; left; exact Hi | exact Ha].
    + intros e He'. rewrite count_email_new, count_occ_filter.
      apply Hin in He'. apply existsb_eqb_in in He'. unfold keep. now rewrite He'.
    + intros e He'. rewrite count_email_new, count_occ_filter.
      assert (Hk : existsb (String.eqb e) es = false).
      { destruct (existsb (String.eqb e) es) eqn:E; [|reflexivity].
        apply existsb_eqb_in, Hin in E. contradiction. }
      unfold keep. now rewrite Hk.
  - intros Hn. destruct (attendee_emails_missing existing Hn) as [err He].
    exists err. unfold CalendarTools.Core.add_attendees. now rewrite He.
Qed.

Lemma remove_attendees_filter (l : list CalendarTools.Attendee) (req : list string) :
  Forall has_email l ->
  CalendarTools.Core.remove_attendees l req =
  Returns (filter (fun a => match CalendarTools.att_email a with
                            | Some e => negb (existsb (String.eqb e) req)
                            | None => true
                            end) l).
Proof.
  induction 1 as [|a l Ha _ IH]; [reflexivity|].
  unfold has_email in Ha. cbn. destruct (CalendarTools.att_email a) as [x|]; [|contradiction].
  rewrite IH. destruct (existsb (String.eqb x) req); reflexivity.
Qed.

Lemma removal_drops_requested (req l : list string) :
  (forall e, In e l -> In e req) ->
  filter (fun a : CalendarTools.Attendee => match CalendarTools.att_email a with
                    | Some e => negb (existsb (String.eqb e) req)
                    | None => true
                    end) (map (fun e => CalendarTools.mkAttendee (Some e) None None) l) = [].
Proof.
  induction l as [|e l IH]; intros Hsub; [reflexivity|].
  cbn. assert (E : existsb (String.eqb e) req = true)
    by (apply existsb_eqb_in, Hsub; left; reflexivity).
  rewrite E. cbn. apply IH. intros x Hx. apply Hsub. right. exact Hx.
Qed.

(** Removing the emails just added restores the effect of removing them from
    the original attendees: [remove_attendees] after a successful
    [add_attendees] of the same list equals [remove_attendees] on the list
    before.  The attendees it keeps are exactly those whose email is not in
    the list, in their order. *)
Theorem remove_after_add_attendees (existing : list CalendarTools.Attendee) (req : list string)
  (r : list CalendarTools.Attendee) :
  CalendarTools.Core.add_attendees existing req = Returns r ->
  CalendarTools.Core.remove_attendees r req = CalendarTools.Core.remove_attendees existing req /\
  exists kept, CalendarTools.Core.remove_attendees existing req = Returns kept /\
    (forall a, In a kept <->
               In a existing /\ forall e, CalendarTools.att_email a = Some e -> ~ In e req).
Proof.
  intros Hadd. unfold CalendarTools.Core.add_attendees in Hadd.
  destruct (CalendarTools.Core.attendee_emails existing) as [es|err] eqn:He; [|discriminate].
  pose proof (attendee_emails_returns _ _ He) as Hall.
  injection Hadd as <-. rewrite add_loop_filter.
  set (added := map (fun e => CalendarTools.mkAttendee (Some e) None None)
                    (filter (fun e => negb (existsb (String.eqb e) es)) req)).
  assert (Hadded : Forall has_email added).
  { apply Forall_forall. intros a Ha. apply in_map_iff in Ha. destruct Ha as [e [<- _]].
    unfold has_email. discriminate. }
  set (P := fun a : CalendarTools.Attendee => match CalendarTools.att_email a with
                    | Some e => negb (existsb (String.eqb e) req)
                    | None => true
                    end).
  assert (Hnone : filter P added = []).
  { apply removal_drops_requested. intros e Hi. apply filter_In in Hi. tauto. }
  split.
  - rewrite !remove_attendees_filter by (try apply Forall_app; auto).
    fold P. rewrite filter_app, Hnone, app_nil_r. reflexivity.
  - exists (filter P existing). split; [apply remove_attendees_filter; exact Hall|].
    intros a. rewrite filter_In. unfold P. split.
    + intros [Hi Hp]. split; [exact Hi|]. intros e He' Hr.
      rewrite He' in Hp. apply negb_true_iff in Hp.
      apply existsb_eqb_in in Hr. congruence.
    + intros [Hi Hn]. split; [exact Hi|].
      destruct (CalendarTools.att_email a) as [e|] eqn:Ea; [|reflexivity].
      apply negb_true_iff. destruct (existsb (String.eqb e) req) eqn:E; [|reflexivity].
      apply existsb_eqb_in in E. exfalso. exact (Hn e eq_refl E).
Qed.

Lemma opt_str_eqb_iff (a b : option string) : CalendarTools.Core.opt_str_eqb a b = true <-> a = b.
Proof.
  destruct a as [x|], b as [y|]; cbn; try (split; congruence).
  rewrite String.eqb_eq. split; congruence.
Qed.

Lemma set_response_first (target : option string) (status : string)
  (pre post : list CalendarTools.Attendee) (a : CalendarTools.Attendee) :
  Forall (fun b => CalendarTools.att_email b <> target) pre ->
  CalendarTools.att_email a = target ->
  CalendarTools.Core.set_response (pre ++ a :: post) target status =
  Some (pre ++ CalendarTools.mkAttendee (CalendarTools.att_email a) (Some status)
                                       (CalendarTools.att_organizer a) :: post)%list.
Proof.
  intros Hpre Ha. induction Hpre as [|b pre Hb _ IH]; cbn.
  - assert (E : CalendarTools.Core.opt_str_eqb (CalendarTools.att_email a) target = true)
      by (apply opt_str_eqb_iff; exact Ha).
    now rewrite E.
  - destruct (CalendarTools.Core.opt_str_eqb (CalendarTools.att_email b) target) eqn:E.
    + apply opt_str_eqb_iff in E. contradiction.
    + rewrite IH. reflexivity.
Qed.

Lemma set_response_none (target : option string) (status : string)
  (attendees : list CalendarTools.Attendee) :
  Forall (fun b => CalendarTools.att_email b <> target) attendees ->
  CalendarTools.Core.set_response attendees target status = None.
Proof.
  induction 1 as [|b l Hb _ IH]; cbn; [reflexivity|].
  destruct (CalendarTools.Core.opt_str_eqb (CalendarTools.att_email b) target) eqn:E.
  - apply opt_str_eqb_iff in E. contradiction.
  - rewrite IH. reflexivity.
Qed.

Lemma core_rsvp_valid (calendar_id organizer_email : option string)
  (attendees : list CalendarTools.Attendee) (status : string) (email : option string) :
  CalendarTools.Core.update_rsvp_status calendar_id organizer_email attendees status email <> None
  <-> In status CalendarTools.Core.valid_statuses.
Proof.
  unfold CalendarTools.Core.update_rsvp_status.
  rewrite <- existsb_eqb_in.
  destruct (existsb (String.eqb status) CalendarTools.Core.valid_statuses); cbn.
  - split; [reflexivity|]. intros _.
    destruct (CalendarTools.Core.set_response _ _ _); discriminate.
  - split; [intros H; exfalso; apply H; reflexivity | discriminate].
Qed.

(** [CalendarService.update_rsvp_status] returns [None] for a status outside
    [accepted], [declined], [tentative], [needsAction].  Otherwise, with the
    target being the given email when it is non-empty and the primary
    calendar id when it is missing or empty, it sets the response status of
    the first attendee whose email equals the target and leaves every other
    attendee as it was; when no attendee has that email it appends one entry
    with the target, the status and [organizer] telling whether the event's
    organizer email equals the target. *)
Theorem core_update_rsvp_effect (calendar_id organizer_email : option string)
  (attendees : list CalendarTools.Attendee) (status : string) (email : option string) :
  let target := match email with
                | Some e => if String.eqb e "" then calendar_id else Some e
                | None => calendar_id
                end in
  (~ In status CalendarTools.Core.valid_statuses ->
   CalendarTools.Core.update_rsvp_status calendar_id organizer_email attendees status email = None) /\
  (In status CalendarTools.Core.valid_statuses ->
   forall pre a post,
     attendees = (pre ++ a :: post)%list ->
     Forall (fun b => CalendarTools.att_email b <> target) pre ->
     CalendarTools.att_email a = target ->
     CalendarTools.Core.update_rsvp_status calendar_id organizer_email attendees status email =
     Some (pre ++ CalendarTools.mkAttendee target (Some status) (CalendarTools.att_organizer a) :: post)%list) /\
  (In status CalendarTools.Core.valid_statuses ->
   Forall (fun b => CalendarTools.att_email b <> target) attendees ->
   CalendarTools.Core.update_rsvp_status calendar_id organizer_email attendees status email =
   Some (attendees ++ [CalendarTools.mkAttendee target (Some status)
                         (Some (CalendarTools.Core.opt_str_eqb organizer_email target))])%list).
Proof.
  intros target. unfold CalendarTools.Core.update_rsvp_status. fold target.
  split; [|split].
  - intros Hn. rewrite <- existsb_eqb_in in Hn.
    destruct (existsb (String.eqb status) CalendarTools.Core.valid_statuses); [contradiction|].
    reflexivity.
  - intros Hv pre a post -> Hpre Ha. apply existsb_eqb_in in Hv. rewrite Hv. cbn.
    rewrite (set_response_first target status pre post a Hpre Ha), Ha. reflexivity.
  - intros Hv Hall. apply existsb_eqb_in in Hv. rewrite Hv. cbn.
    rewrite (set_response_none target status attendees Hall). reflexivity.
Qed.

Lemma calendar_assoc_some {A} (k : string) (m : list (string * A)) (v : A) :
  CalendarTools.assoc k m = Some v -> In (k, v) m.
Proof.
  induction m as [|[k' v'] m IH]; cbn; [discriminate|].
  destruct (String.eqb_spec k' k) as [->|_]; [intros H; injection H as ->; left; reflexivity|].
  intros H. right. exact (IH H).
Qed.

Lemma calendar_assoc_none {A} (k : string) (m : list (string * A)) :
  CalendarTools.assoc k m = None -> ~ In k (map fst m).
Proof.
  induction m as [|[k' v'] m IH]; cbn; [auto|].
  destruct (String.eqb_spec k' k) as [->|Hne]; [discriminate|].
  intros H [E|Hi]; [exact (Hne E) | exact (IH H Hi)].
Qed.

(** The [update_rsvp_status] tool lower-cases the status and maps it through
    [status_mapping], falling back to the status as given.  The status is
    accepted (the result is not the early [None]) exactly when its lower-case
    form is a key of the mapping or it is literally [needsAction]: the key
    [needsAction] can never equal a lower-cased string, so [needsAction] in
    any other capitalisation, such as [NeedsAction], is rejected. *)
Theorem rsvp_tool_accepted_statuses (calendar_id organizer_email : option string)
  (attendees : list CalendarTools.Attendee) (status : string) (email : option string) :
  CalendarTools.update_rsvp_status CalendarTools.py_lower calendar_id organizer_email
    attendees status email <> None
  <-> In (CalendarTools.py_lower status) (map fst CalendarTools.status_mapping)
      \/ status = "needsAction".
Proof.
  unfold CalendarTools.update_rsvp_status. rewrite core_rsvp_valid.
  destruct (CalendarTools.assoc (CalendarTools.py_lower status) CalendarTools.status_mapping)
    as [v|] eqn:E; cbn [get_or].
  - apply calendar_assoc_some in E. split.
    + intros _. left. apply in_map_iff. exists (CalendarTools.py_lower status, v). auto.
    + intros _. cbn in E.
      repeat (destruct E as [E|E]; [injection E as _ <-; cbn; tauto|]). contradiction.
  - pose proof (calendar_assoc_none _ _ E) as Hn. split.
    + intros Hv. right. cbn in Hv.
      repeat (destruct Hv as [Hv|Hv]; [subst status; try reflexivity; discriminate E|]).
      contradiction.
    + intros [Hi | ->]; [contradiction | cbn; tauto].
Qed.



Example json_loads_object :
  Json.json_loads ("{" ++ DQ ++ "agent_type" ++ DQ ++ ": " ++ DQ ++ "both" ++ DQ ++ ", "
                   ++ DQ ++ "n" ++ DQ ++ ": [1.5e3, null, true]}")
  = Some (JObj [("agent_type", JStr "both");
                ("n", JArr [JNum "1.5e3"; JNull; JBool true])]).
Proof. vm_compute. reflexivity. Qed.

Example json_loads_rejects_trailing_comma :
  Json.json_loads ("{" ++ DQ ++ "a" ++ DQ ++ ": 1,}") = None.
Proof. vm_compute. reflexivity. Qed.

(** ** Concrete runs *)

(** Witness for C1: a [both] task in [gmail_first] order whose Gmail run calls
    [end_conversation]. *)
Lemma both_end_conversation_witness :
  let st := Concrete.routed_state "both" "gmail_first" "bye" [mkMsg "human" "bye"] in
  let gmail := Concrete.agent (A:=Email) "Goodbye" ["end_conversation"] in
  let calendar := Concrete.agent (A:=Event) "No events" [] in
  agent_type st = Some (JStr "both") /\
  exists ctx,
    build_conversation_context Concrete.msg_str
      (get_or (gmail_instruction st) (JStr (user_query st))) (messages st) = Returns ctx /\
    exists st' rest,
      step Concrete.msg_str Json.json_loads (Concrete.orch "") Concrete.no_raise
        Concrete.no_raise gmail calendar GmailAgent st
      = (mkInvocation GmailAgent (Some ctx), st', Some "calendar_agent") /\
      continue_conversation st' = Some false /\
      map inv_node (fst (run_from Concrete.msg_str Json.json_loads (Concrete.orch "")
                           Concrete.no_raise Concrete.no_raise gmail calendar 2 GmailAgent st))
      = GmailAgent :: CalendarAgent :: rest.
Proof.
  intros st gmail calendar. split; [reflexivity|].
  eexists. split; [reflexivity|].
  apply (proj1 (both_end_conversation_still_runs_second Concrete.msg_str Json.json_loads
                  (Concrete.orch "") Concrete.no_raise Concrete.no_raise gmail calendar
                  st 0 eq_refl) _ "Goodbye" ["end_conversation"] []);
    [reflexivity | reflexivity | reflexivity | reflexivity | left; reflexivity].
Defined.

(** C1: in a [both] turn where the Gmail specialist, running first, calls
    [end_conversation], the Calendar specialist is still invoked and the run
    pauses before [user_input] instead of ending. *)
Lemma both_end_conversation_counterexample :
  let r := run_turn Concrete.msg_str Json.json_loads
             (Concrete.orch (Concrete.routing_output "both" "gmail_first"))
             Concrete.no_raise Concrete.no_raise
             (Concrete.agent "Goodbye" ["end_conversation"]) (Concrete.agent "No events" [])
             (Concrete.start_state "bye" []) in
  map inv_node (fst r) = [UserInput; Orchestrator; GmailAgent; CalendarAgent] /\
  match snd r with Interrupted _ => True | _ => False end.
Proof. vm_compute. split; [reflexivity | exact I]. Qed.

(** Witness for C2 on the query ["q"]. *)
Lemma classify_fallbacks_witness :
  let text := Concrete.routing_output "calendar" "gmail_first" in
  (str_contains "{" text && str_contains "}" text = true /\
   Json.json_loads (json_span text)
   = Some (JObj [("agent_type", JStr "calendar"); ("execution_order", JStr "gmail_first");
                 ("reasoning", JStr "r")])) /\
  classify Json.json_loads "q" (OrchOutput text)
  = mkDecision "calendar" (JStr "gmail_first") (JStr "q") (JStr "q") /\
  classify Json.json_loads "q" (OrchOutput "no json here") = default_decision "q".
Proof.
  intros text.
  destruct (classify_fallbacks Json.json_loads "q") as [_ [Hnb [_ [_ Hobj]]]].
  assert (Hb : str_contains "{" text && str_contains "}" text = true) by reflexivity.
  assert (Hj : Json.json_loads (json_span text)
   = Some (JObj [("agent_type", JStr "calendar"); ("execution_order", JStr "gmail_first");
                 ("reasoning", JStr "r")])) by (vm_compute; reflexivity).
  split; [split; assumption|]. split.
  - rewrite (Hobj text _ Hb Hj). reflexivity.
  - apply Hnb. reflexivity.
Defined.

(** C2: an object without [agent_type] but with other fields is not mapped to
    the default decision: the fields present are kept. *)
Lemma missing_field_not_default :
  let text := "{" ++ Concrete.q "reasoning" ++ ": " ++ Concrete.q "r" ++ ", "
              ++ Concrete.q "execution_order" ++ ": " ++ Concrete.q "calendar_first" ++ ", "
              ++ Concrete.q "gmail_instruction" ++ ": " ++ Concrete.q "x" ++ "}" in
  classify Json.json_loads "q" (OrchOutput text)
  = mkDecision "gmail" (JStr "calendar_first") (JStr "x") (JStr "q") /\
  classify Json.json_loads "q" (OrchOutput text) <> default_decision "q".
Proof. vm_compute. split; [reflexivity | discriminate]. Qed.

(** Witness for C3. *)
Lemma both_calendar_first_witness :
  let st := Concrete.routed_state "both" "calendar_first" "meetings and mail"
              [mkMsg "human" "meetings and mail"] in
  let gmail := Concrete.agent (A:=Email) "2 emails" [] in
  let calendar := Concrete.agent (A:=Event) "3 meetings" [] in
  agent_type st = Some (JStr "both") /\
  execution_order st = Some (JStr "calendar_first") /\
  path_lookup orchestrator_paths (route_to_agent st) = Some "calendar_agent" /\
  match fst (run_from Concrete.msg_str Json.json_loads (Concrete.orch "") Concrete.no_raise
               Concrete.no_raise gmail calendar 2 CalendarAgent st) with
  | first :: rest =>
      inv_node first = CalendarAgent /\
      (forall cctx resp calls cache,
         inv_context first = Some cctx ->
         calendar cctx (get_or (events st) []) = RunDone resp calls cache ->
         0 < 1 ->
         exists g, rest = [g] /\ inv_node g = GmailAgent) /\
      (forall g, In g rest -> inv_node g = GmailAgent ->
         exists cctx resp calls cache,
           inv_context first = Some cctx /\
           calendar cctx (get_or (events st) []) = RunDone resp calls cache /\
           forall ctx, inv_context g = Some ctx -> contains_text resp ctx)
  | [] => False
  end.
Proof.
  intros st gmail calendar. split; [reflexivity|]. split; [reflexivity|].
  exact (both_calendar_first_order Concrete.msg_str Json.json_loads (Concrete.orch "")
           Concrete.no_raise Concrete.no_raise gmail calendar st 1 eq_refl eq_refl).
Defined.

(** C4: the user types [quit] and the orchestrator answers [terminate]: the
    graph runs [user_input] and [orchestrator], then routing to ["END"] fails
    (it is not a key of the path map), so the turn neither reaches [END] nor
    commits [continue_conversation = false]; no specialist runs. *)
Theorem terminate_turn_fails :
  let orch := Concrete.orch (Concrete.routing_output "terminate" "gmail_first") in
  let st0 := Concrete.start_state "quit" [] in
  let st1 := apply_update (user_input_node st0) st0 in
  u_continue (orchestrator_node Json.json_loads orch st1) = Some false /\
  route_to_agent (apply_update (orchestrator_node Json.json_loads orch st1) st1) = "END" /\
  path_lookup orchestrator_paths "END" = None /\
  run_turn Concrete.msg_str Json.json_loads orch Concrete.no_raise Concrete.no_raise
    (Concrete.agent "unused" []) (Concrete.agent "unused" []) st0
  = ([mkInvocation UserInput None; mkInvocation Orchestrator None], Failed st1) /\
  continue_conversation st1 = Some true.
Proof.
  intros orch st0 st1.
  destruct (terminate_branch_fails Concrete.msg_str Json.json_loads orch Concrete.no_raise
              Concrete.no_raise (Concrete.agent "unused" []) (Concrete.agent "unused" [])
              st1 4) as [Hc [Hr [Hp _]]]; [vm_compute; reflexivity|].
  split; [exact Hc|]. split; [exact Hr|]. split; [exact Hp|].
  split; vm_compute; reflexivity.
Qed.

(** Witness for C5 on a cache of two emails. *)
Lemma ordinal_reference_witness :
  let emails := [mkEmail "id1" "s1" "a@x"; mkEmail "id2" "s2" "b@x"] in
  let get_email := fun id => Some (GmailToolsOrdinal.mkDetail ("subject of " ++ id) "a@x" "today" "body") in
  let service_reply := fun (_ _ : string) => true in
  (exists e, nth_error emails (Z.to_nat (2 - 1)) = Some e /\
     GmailToolsOrdinal.read_email get_email emails 2 =
       Returns (match get_email (email_id e) with
                | None => "Could not retrieve email details."
                | Some d => GmailToolsOrdinal.format_details d
                end) /\
     GmailToolsOrdinal.reply_to_email service_reply emails 2 "thanks" =
       Returns (if service_reply (email_id e) "thanks"
                then "Reply sent successfully to email " ++ str_nat (Z.to_nat 2)
                else "Failed to send reply")) /\
  GmailToolsOrdinal.read_email get_email emails 3 = Returns (GmailToolsOrdinal.invalid_number_msg emails) /\
  GmailToolsOrdinal.reply_to_email service_reply [] 1 "thanks"
    = Returns "No emails in context. Please list emails first.".
Proof.
  intros emails get_email service_reply.
  destruct (ordinal_reference_resolution get_email service_reply emails 2 "thanks")
    as [Hin _].
  destruct (ordinal_reference_resolution get_email service_reply emails 3 "thanks")
    as [_ [Hout _]].
  destruct (ordinal_reference_resolution get_email service_reply [] 1 "thanks")
    as [_ [Hempty _]].
  split; [apply Hin; simpl; lia|].
  split; [apply (proj1 (Hout ltac:(simpl; lia)))|].
  apply (proj2 (Hempty ltac:(simpl; lia))).
Defined.

(** Witness for C6: the Gmail tools fail to load. *)
Lemma specialist_exception_witness :
  let gmail_raises := Some "token expired" in
  let st := Concrete.routed_state "gmail" "gmail_first" "list" [mkMsg "human" "list"] in
  let gmail := Concrete.agent (A:=Email) "unused" [] in
  let calendar := Concrete.agent (A:=Event) "unused" [] in
  fst (gmail_try Concrete.msg_str gmail_raises gmail st) = Raised "token expired" /\
  exists st',
    run_from Concrete.msg_str Json.json_loads (Concrete.orch "") gmail_raises Concrete.no_raise
      gmail calendar 1 GmailAgent st
    = ([mkInvocation GmailAgent (snd (gmail_try Concrete.msg_str gmail_raises gmail st))],
       Interrupted st') /\
    continue_conversation st' = Some true /\
    agent_response st' <> "" /\
    messages st' = (messages st ++ [mkMsg "ai" (agent_response st')])%list.
Proof.
  intros gmail_raises st gmail calendar. split; [reflexivity|].
  apply (proj1 (specialist_exception_returns_to_input Concrete.msg_str Json.json_loads
                  (Concrete.orch "") gmail_raises Concrete.no_raise gmail calendar st 0)
                "token expired").
  reflexivity.
Defined.

(** Witness for C7. *)
Lemma agent_type_routing_witness :
  let text := Concrete.routing_output "weather" "gmail_first" in
  let st := Concrete.routed_state "weather" "gmail_first" "forecast" [] in
  rd_agent_type (classify Json.json_loads "forecast" (OrchOutput text)) = "weather" /\
  route_to_agent st = "gmail_agent".
Proof.
  intros text st.
  destruct (agent_type_unchecked_routing Json.json_loads) as [Hc [_ [_ [_ Hother]]]].
  split.
  - apply (Hc "forecast" text
             [("agent_type", JStr "weather"); ("execution_order", JStr "gmail_first");
              ("reasoning", JStr "r")]);
      [reflexivity | vm_compute; reflexivity | reflexivity].
  - apply (Hother st "weather"); [reflexivity|].
    simpl. intros [H|[H|[H|[H|[]]]]]; discriminate.
Defined.

(** C7: [agent_type] can hold a value outside the five listed ones. *)
Lemma agent_type_outside_listed_values :
  let d := classify Json.json_loads "forecast"
             (OrchOutput (Concrete.routing_output "weather" "gmail_first")) in
  rd_agent_type d = "weather" /\
  ~ In (rd_agent_type d) ["gmail"; "calendar"; "both"; "orchestrator"; "terminate"].
Proof.
  vm_compute. split; [reflexivity|].
  intros [H|[H|[H|[H|[H|[]]]]]]; discriminate.
Qed.

(** Witness for C8: a history of seven messages. *)
Lemma specialist_context_witness :
  let st := Concrete.routed_state "gmail" "gmail_first" "m7" Concrete.history7 in
  let gmail := Concrete.agent (A:=Email) "ok" [] in
  let calendar := Concrete.agent (A:=Event) "ok" [] in
  exists ctx,
    snd (gmail_agent_node Concrete.msg_str Concrete.no_raise gmail st) = Some ctx /\
    let window := py_tail 5 (messages st) in
    length window = Nat.min 5 (length (messages st)) /\
    (exists older, messages st = (older ++ window)%list) /\
    (messages st = [] \/
     exists s, ctx = JStr ("Previous conversation:" ++ NL
                           ++ String.concat NL (map (format_msg Concrete.msg_str) window)
                           ++ NL ++ NL ++ "Current question: " ++ s)).
Proof.
  intros st gmail calendar. eexists. split; [reflexivity|].
  apply (specialist_context_last_five Concrete.msg_str Concrete.no_raise Concrete.no_raise
           gmail calendar st).
  left. reflexivity.
Defined.

(** Witness for C9: the Calendar run raises. *)
Lemma specialist_error_frame_witness :
  let st := {| messages := []; user_query := "today"; agent_response := "";
                continue_conversation := Some true; agent_type := Some (JStr "calendar");
                execution_order := Some (JStr "gmail_first");
                gmail_instruction := Some (JStr "today"); calendar_instruction := Some (JStr "today");
                emails := Some [mkEmail "id1" "s1" "a@x"]; events := None |} in
  let gmail := Concrete.agent (A:=Email) "unused" [] in
  let calendar := fun (_ : jval) (_ : list Event) => @RunRaised Event "timeout" in
  exists e,
    fst (calendar_try Concrete.msg_str Concrete.no_raise calendar st) = Raised e /\
    let m := "Error processing Calendar query: " ++ e in
    update (fst (calendar_agent_node Concrete.msg_str Concrete.no_raise calendar st))
    = error_update m /\
    apply_update (update (fst (calendar_agent_node Concrete.msg_str Concrete.no_raise calendar st))) st
    = {| messages := (messages st ++ [mkMsg "ai" m])%list; user_query := user_query st;
         agent_response := m; continue_conversation := Some true;
         agent_type := agent_type st; execution_order := execution_order st;
         gmail_instruction := gmail_instruction st;
         calendar_instruction := calendar_instruction st;
         emails := emails st; events := events st |}.
Proof.
  intros st gmail calendar. eexists. split; [reflexivity|].
  apply (proj2 (specialist_error_update_frame Concrete.msg_str Concrete.no_raise
                  Concrete.no_raise gmail calendar st) _).
  reflexivity.
Defined.

(** Witness for [specialist_non_string_instruction]. *)
Lemma specialist_non_string_witness :
  let st := {| messages := [mkMsg "human" "hi"]; user_query := "q"; agent_response := "";
               continue_conversation := Some true; agent_type := Some (JStr "both");
               execution_order := Some (JStr "gmail_first");
               gmail_instruction := Some JNull; calendar_instruction := Some JNull;
               emails := None; events := None |} in
  let gmail := Concrete.agent (A:=Email) "unused" [] in
  let calendar := Concrete.agent (A:=Event) "unused" [] in
  messages st <> [] /\ (forall s, JNull <> JStr s) /\
  gmail_agent_node Concrete.msg_str Concrete.no_raise gmail st =
  (mkCommand "user_input" (error_update ("Error processing Gmail query: " ++ concat_type_error JNull)), None) /\
  calendar_agent_node Concrete.msg_str Concrete.no_raise calendar st =
  (mkCommand "user_input" (error_update ("Error processing Calendar query: " ++ concat_type_error JNull)), None).
Proof.
  intros st gmail calendar.
  assert (H1 : messages st <> []) by discriminate.
  assert (H2 : forall s, JNull <> JStr s) by (intros s; discriminate).
  destruct (specialist_non_string_instruction Concrete.msg_str Concrete.no_raise Concrete.no_raise
              gmail calendar st JNull H1 H2) as [G C].
  split; [exact H1|]. split; [exact H2|].
  split; [exact (G eq_refl eq_refl) | exact (C eq_refl eq_refl)].
Defined.

(** Witness for [classify_ignores_surrounding_text]. *)
Lemma classify_surrounding_text_witness :
  let body := Concrete.q "agent_type" ++ ": " ++ Concrete.q "calendar" in
  str_contains "{" "Decision: " = false /\ str_contains "}" " Done." = false /\
  classify Json.json_loads "q" (OrchOutput ("Decision: " ++ "{" ++ body ++ "}" ++ " Done.")) =
  classify Json.json_loads "q" (OrchOutput ("{" ++ body ++ "}")) /\
  rd_agent_type (classify Json.json_loads "q" (OrchOutput ("{" ++ body ++ "}"))) = "calendar".
Proof.
  intros body. split; [reflexivity|]. split; [reflexivity|].
  split; [apply classify_ignores_surrounding_text; reflexivity | vm_compute; reflexivity].
Defined.

(** Witness for [email_action_tools_target]: archiving the second of two
    emails, and an out-of-range number. *)
Lemma email_action_tools_witness :
  let svc := Concrete.gmail_service [] in
  let emails := [mkEmail "id1" "s1" "a@x"; mkEmail "id2" "s2" "b@x"] in
  (1 <= 2 <= Z.of_nat (length emails))%Z /\
  (exists e, nth_error emails (Z.to_nat (2 - 1)) = Some e /\
             snd (GmailTools.archive_email svc emails 2) = [GmailTools.CallArchive (email_id e)]) /\
  ~ (1 <= 3 <= Z.of_nat (length emails))%Z /\
  GmailTools.archive_email svc emails 3 = (Returns (GmailToolsOrdinal.invalid_number_msg emails), []).
Proof.
  intros svc emails.
  pose proof (Forall_inv (email_action_tools_target svc emails 2)) as H2.
  pose proof (Forall_inv (email_action_tools_target svc emails 3)) as H3.
  destruct H2 as [_ [Hin _]]. destruct H3 as [_ [_ Hout]].
  assert (R2 : (1 <= 2 <= Z.of_nat (length emails))%Z) by (simpl; lia).
  assert (R3 : ~ (1 <= 3 <= Z.of_nat (length emails))%Z) by (simpl; lia).
  split; [exact R2|]. split; [exact (Hin R2)|]. split; [exact R3|]. exact (Hout R3).
Defined.

(** Witness for [label_tools_first_match]: the label named [Urgent] is found
    by the name [urgent] after a non-matching label. *)
Lemma label_tools_witness :
  let labels := [GmailTools.mkLabel "Label_1" "Work"; GmailTools.mkLabel "Label_2" "Urgent"] in
  let svc := Concrete.gmail_service labels in
  let emails := [mkEmail "id1" "s1" "a@x"; mkEmail "id2" "s2" "b@x"] in
  exists e, nth_error emails (Z.to_nat (2 - 1)) = Some e /\
            snd (GmailTools.add_label_to_email Concrete.py_upper svc emails 2 "urgent") =
            [GmailTools.CallGetLabels; GmailTools.CallAddLabel (email_id e) "Label_2"].
Proof.
  intros labels svc emails.
  pose proof (Forall_inv (label_tools_first_match Concrete.py_upper svc emails 2 "urgent")) as H.
  destruct H as [_ [_ Hfirst]].
  apply (Hfirst ltac:(simpl; lia) [GmailTools.mkLabel "Label_1" "Work"]
                (GmailTools.mkLabel "Label_2" "Urgent") []).
  - reflexivity.
  - apply Forall_cons; [vm_compute; reflexivity | apply Forall_nil].
  - vm_compute. reflexivity.
  - discriminate.
Defined.

(** Witness for [draft_reply_confirmation_subject]: replying to an email whose
    subject already starts with [Re:]. *)
Lemma draft_reply_confirmation_witness :
  let svc := Concrete.gmail_service [] in
  let e := mkEmail "id1" "Re: lunch" "a@x" in
  let headers := [("From", "a@x"); ("Subject", "Re: lunch")] in
  GmailTools.draft_subject (GmailTools.draft_reply_message headers "t1" "ok") = "Re: lunch" /\
  GmailTools.create_draft_reply svc [e] 1 "ok" =
  (Returns ("Draft reply created successfully!" ++ NL ++ NL ++ "Replying to: a@x"
            ++ NL ++ "Subject: Re: Re: lunch" ++ NL ++ NL
            ++ "You can review and send this draft reply from Gmail. Draft ID: draft-id1"),
   [GmailTools.CallCreateDraftReply "id1" "ok"]).
Proof.
  intros svc e headers.
  exact (draft_reply_confirmation_subject svc [e] 1 "ok" e "draft-id1" headers "t1"
           ltac:(simpl; lia) eq_refl eq_refl ltac:(discriminate) eq_refl eq_refl).
Defined.

(** Witness for [lookup_number_word_precedence]: [the 2nd one] names event 2. *)
Lemma lookup_number_word_witness :
  let events := [CalendarTools.mkCalEvent (Some "e1") (Some "Lunch");
                 CalendarTools.mkCalEvent (Some "e2") (Some "Standup")] in
  exists m, CalendarTools.lookup_event_by_reference CalendarTools.py_lower CalendarTools.py_strip
              CalendarTools.py_isdigit CalendarTools.py_int events "the 2nd one" =
            CalendarTools.number_reply events m.
Proof.
  intros events.
  apply (lookup_number_word_precedence CalendarTools.py_lower CalendarTools.py_strip
           CalendarTools.py_isdigit CalendarTools.py_int events "the 2nd one" "2nd" 2).
  - discriminate.
  - vm_compute. tauto.
  - vm_compute. reflexivity.
Defined.

(** Witness for [lookup_title_first_match]: [Standup] names the second event. *)
Lemma lookup_title_witness :
  let lunch := CalendarTools.mkCalEvent (Some "e1") (Some "Lunch") in
  let standup := CalendarTools.mkCalEvent (Some "e2") (Some "Team standup") in
  CalendarTools.lookup_event_by_reference CalendarTools.py_lower CalendarTools.py_strip
    CalendarTools.py_isdigit CalendarTools.py_int [lunch; standup] "Standup" =
  Returns "Event ID: e2 (Event #2: Team standup)".
Proof.
  intros lunch standup.
  refine (proj1 (lookup_title_first_match CalendarTools.py_lower CalendarTools.py_strip
                   CalendarTools.py_isdigit CalendarTools.py_int "Standup" [lunch] standup []
                   _ _ _ _ _)).
  - vm_compute. reflexivity.
  - vm_compute. reflexivity.
  - repeat (apply Forall_cons; [vm_compute; reflexivity|]). apply Forall_nil.
  - apply Forall_cons; [vm_compute; reflexivity | apply Forall_nil].
  - vm_compute. reflexivity.
Defined.

(** Witness for [add_attendees_effect]: [b@x] requested twice is added twice,
    [a@x] already present is not added; a current attendee without email
    makes it raise. *)
Lemma add_attendees_witness :
  let existing := [CalendarTools.mkAttendee (Some "a@x") (Some "accepted") None] in
  (exists added,
     CalendarTools.Core.add_attendees existing ["a@x"; "b@x"; "b@x"] = Returns (existing ++ added)%list /\
     CalendarTools.count_email "b@x" added = 2 /\ CalendarTools.count_email "a@x" added = 0) /\
  exists err, CalendarTools.Core.add_attendees [CalendarTools.mkAttendee None None None] ["b@x"] = Raised err.
Proof.
  intros existing. split.
  - assert (Hall : Forall has_email existing)
      by (apply Forall_cons; [discriminate | apply Forall_nil]).
    destruct (proj1 (add_attendees_effect existing ["a@x"; "b@x"; "b@x"]) Hall)
      as [added [Hadd [_ [Hold Hnew]]]].
    exists added. split; [exact Hadd|]. split.
    + rewrite Hnew; [reflexivity|]. intros [H|[]]. discriminate.
    + apply Hold. left. reflexivity.
  - apply (proj2 (add_attendees_effect [CalendarTools.mkAttendee None None None] ["b@x"])).
    intros H. apply Forall_inv in H. apply H. reflexivity.
Defined.

(** Witness for [remove_after_add_attendees]. *)
Lemma remove_after_add_witness :
  let a := CalendarTools.mkAttendee (Some "a@x") (Some "accepted") None in
  let c := CalendarTools.mkAttendee (Some "c@x") None None in
  let b := CalendarTools.mkAttendee (Some "b@x") None None in
  CalendarTools.Core.add_attendees [a; c] ["b@x"; "c@x"] = Returns [a; c; b] /\
  CalendarTools.Core.remove_attendees [a; c; b] ["b@x"; "c@x"] =
  CalendarTools.Core.remove_attendees [a; c] ["b@x"; "c@x"].
Proof.
  intros a c b.
  assert (H : CalendarTools.Core.add_attendees [a; c] ["b@x"; "c@x"] = Returns [a; c; b])
    by (vm_compute; reflexivity).
  split; [exact H | exact (proj1 (remove_after_add_attendees [a; c] ["b@x"; "c@x"] [a; c; b] H))].
Defined.

(** Witness for [core_update_rsvp_effect]: the user, found second in the
    list, accepts; an attendee not in the list is appended. *)
Lemma core_update_rsvp_witness :
  let a := CalendarTools.mkAttendee (Some "a@x") None None in
  let me := CalendarTools.mkAttendee (Some "me@x") (Some "needsAction") (Some false) in
  CalendarTools.Core.update_rsvp_status (Some "me@x") (Some "org@x") [a; me] "accepted" None =
  Some [a; CalendarTools.mkAttendee (Some "me@x") (Some "accepted") (Some false)] /\
  CalendarTools.Core.update_rsvp_status (Some "me@x") (Some "org@x") [a; me] "tentative" (Some "org@x") =
  Some [a; me; CalendarTools.mkAttendee (Some "org@x") (Some "tentative") (Some true)] /\
  CalendarTools.Core.update_rsvp_status (Some "me@x") (Some "org@x") [a; me] "going" None = None.
Proof.
  intros a me.
  destruct (core_update_rsvp_effect (Some "me@x") (Some "org@x") [a; me] "accepted" None)
    as [_ [Hfound _]].
  destruct (core_update_rsvp_effect (Some "me@x") (Some "org@x") [a; me] "tentative" (Some "org@x"))
    as [_ [_ Happend]].
  destruct (core_update_rsvp_effect (Some "me@x") (Some "org@x") [a; me] "going" None)
    as [Hinvalid _].
  split; [|split].
  - apply (Hfound ltac:(vm_compute; tauto) [a] me [] eq_refl); [|reflexivity].
    apply Forall_cons; [cbn; discriminate | apply Forall_nil].
  - apply Happend; [vm_compute; tauto|].
    apply Forall_cons; [cbn; discriminate|]. apply Forall_cons; [cbn; discriminate | apply Forall_nil].
  - apply Hinvalid. vm_compute. intuition discriminate.
Defined.
